(** * clickhouse_backend.driver.connection

    A shallow embedding of [clickhouse_backend/driver/connection.py]:
    the patched [send_query] routine, the pooled [Cursor] (close, the
    [use_numpy] property, [set_query_execution_args], [__del__],
    [_prepare], [execute] with its row-count emulation) and
    [Connection.cursor].

    Python [str] values are sequences of Unicode code points, so a
    string is a list of code points here; mutable objects are records
    threaded through a state-and-exception monad; calls made to the
    collaborators that live outside the file (the pool, the client
    handle) are recorded in a trace. *)

From Stdlib Require Import List ZArith NArith Bool String Ascii Lia.
Import ListNotations.

Local Open Scope string_scope.
Local Open Scope list_scope.

(** ** Python strings *)

Module PyStr.

Definition char := N.
Definition str := list char.

(** A source literal, code point by code point. *)
Definition lit (s : string) : str :=
  map N_of_ascii (list_ascii_of_string s).

Definition dquote : char := 34%N.
Definition backslash : char := 92%N.
Definition newline : char := 10%N.

(** [s] between two double quotes. *)
Definition quoted (s : str) : str := dquote :: s ++ [dquote].

Fixpoint str_eqb (a b : str) : bool :=
  match a, b with
  | [], [] => true
  | x :: a', y :: b' => N.eqb x y && str_eqb a' b'
  | _, _ => false
  end.

(** [s.startswith(p)] *)
Fixpoint startswith (p s : str) : bool :=
  match p, s with
  | [], _ => true
  | x :: p', y :: s' => N.eqb x y && startswith p' s'
  | _ :: _, [] => false
  end.

Definition len (s : str) : Z := Z.of_nat (List.length s).

(** [str.upper()] of one code point.  On the Latin-1 range
    U+0000..U+00FF the table is written out: a..z and the accented
    lower-case letters move down by 32, the micro sign and
    y-diaeresis leave the range, and sharp s (U+00DF) becomes the two
    letters SS.  The rest of the Unicode table is [above]. *)
Definition upper_char (above : char -> str) (c : char) : str :=
  (if 255 <? c then above c
   else if (97 <=? c) && (c <=? 122) then [c - 32]
   else if c =? 181 then [924]
   else if c =? 223 then [83; 83]
   else if (224 <=? c) && (c <=? 254) && negb (c =? 247) then [c - 32]
   else if c =? 255 then [376]
   else [c])%N.

(** [s.upper()], given the table above Latin-1. *)
Definition upper_with (above : char -> str) (s : str) : str :=
  flat_map (upper_char above) s.

(** [s.rfind(sub, start)] for [0 <= start]: the highest index
    [k >= start] at which [sub] occurs in [s], or [-1].  The scan
    carries the index [k] of the suffix it is looking at. *)
Fixpoint rfind_at (sub s : str) (k start : Z) : Z :=
  match s with
  | [] => if startswith sub [] && (start <=? k)%Z then k else (-1)%Z
  | _ :: s' =>
      let r := rfind_at sub s' (k + 1) start in
      if (0 <=? r)%Z then r
      else if startswith sub s && (start <=? k)%Z then k else (-1)%Z
  end.

Definition rfind_from (s sub : str) (start : Z) : Z := rfind_at sub s 0 start.

(** [s.rfind(sub)] *)
Definition rfind (s sub : str) : Z := rfind_from s sub 0.

(** A slice bound, clipped the way Python clips it. *)
Definition clip (n k : Z) : nat :=
  Z.to_nat (if (k <? 0)%Z then Z.max 0 (k + n) else Z.min k n).

(** [s[a:b]] *)
Definition slice (s : str) (a b : Z) : str :=
  skipn (clip (len s) a) (firstn (clip (len s) b) s).

(** [s[a:]] *)
Definition slice_from (s : str) (a : Z) : str :=
  skipn (clip (len s) a) s.

(** [sub] occurs somewhere in [s]. *)
Definition occurs (sub s : str) : Prop :=
  exists pre post, s = pre ++ sub ++ post.

End PyStr.
Import PyStr.

(** ** The statement shape

    [update_pattern] is the compiled regular expression: the literal
    ALTER TABLE and a space, then the group [name_regex], then the
    literal UPDATE between two spaces.  [name_regex] is a double
    quote, one or more repetitions of either a character other than a
    double quote or a backslash followed by any character, and a
    closing double quote. *)

Module Pattern.

(** The greedy repetition inside [name_regex] followed by the rest of
    the pattern (closing quote, then UPDATE between spaces), in the order a
    backtracking matcher tries things: first alternative, second
    alternative, and only then leaving the loop.  [acc] is what the
    loop has consumed, [nonempty] whether it has run at least once.
    The dot does not match a newline. *)
Fixpoint name_loop (s acc : str) (nonempty : bool) : option str :=
  match s with
  | [] => None
  | c :: rest =>
      match (if negb (c =? dquote)%N
             then name_loop rest (acc ++ [c]) true else None) with
      | Some r => Some r
      | None =>
          match (if (c =? backslash)%N then
                   match rest with
                   | d :: rest' =>
                       if negb (d =? newline)%N
                       then name_loop rest' (acc ++ [c; d]) true else None
                   | [] => None
                   end
                 else None) with
          | Some r => Some r
          | None =>
              if nonempty && (c =? dquote)%N
                 && startswith (lit " UPDATE ") rest
              then Some acc else None
          end
      end
  end.

(** [update_pattern.match(s)], giving [m.group(1)]: the table name
    with its quotes. *)
Definition update_pattern_match (s : str) : option str :=
  if startswith (lit "ALTER TABLE ") s then
    match skipn 12 s with
    | c :: rest =>
        if (c =? dquote)%N
        then option_map quoted (name_loop rest [] false) else None
    | [] => None
    end
  else None.

Definition matches (s : str) : bool :=
  match update_pattern_match s with Some _ => true | None => false end.

End Pattern.
Import Pattern.

(** ** Values, calls and the trace *)

Inductive Value :=
| VNone
| VInt (z : Z)
| VStr (s : str).

Definition Row := list Value.

(** Query parameters in dict form. *)
Definition Params := list (str * Value).

Definition Hosts := list (str * Z).

(** The two families of result classes a client can assemble results
    with: [QueryResult] and friends, or their NumPy counterparts. *)
Inductive ResultCls := Plain | Numpy.

(** The client handle, as far as this file touches it:
    [client_settings["use_numpy"]], the three result classes and
    [connection.hosts]. *)
Record Client := mkClient {
  client_id : N;
  client_use_numpy : bool;
  query_result_cls : ResultCls;
  iter_query_result_cls : ResultCls;
  progress_query_result_cls : ResultCls;
  hosts : Hosts
}.

(** One [client.execute(query, params=..., columnar=...)] call. *)
Record Call := mkCall {
  call_query : str;
  call_params : option Params;
  call_columnar : option bool
}.

(** What [client.execute(..., with_column_types=True)] hands back: a
    row count, or rows with their column header. *)
Inductive Response :=
| RInt (n : Z)
| RResult (rows : list Row) (columns_with_types : list (str * str)).

Inductive Answer :=
| Reply (r : Response)
| DriverError.

Inductive Exn :=
| InterfaceError (msg : string)
| OperationalError
| ProgrammingError (msg : string)
| RuntimeError (msg : string)
| AttributeError
| TypeError
| ValueError
| OtherError (tag : N).

(** Calls made to the collaborators, in order. *)
Inductive Event :=
| Sent (c : Call)        (* the handle was driven with this call *)
| Pushed (h : Client)    (* pool.push(h) *)
| Pulled                 (* pool.pull() *)
| CleanedUp.             (* pool.cleanup() *)

Definition is_push (e : Event) : bool :=
  match e with Pushed _ => true | _ => false end.

(** How many times a handle went back to the pool. *)
Definition pushes (tr : list Event) : nat := List.length (filter is_push tr).

(** The calls the handles received. *)
Definition sent (tr : list Event) : list Call :=
  flat_map (fun e => match e with Sent c => [c] | _ => [] end) tr.

Definition len_rows (rows : list Row) : Z := Z.of_nat (List.length rows).

(** ** A state-and-exception monad

    A method runs on an object of type [Obj] and on the trace; it either
    returns or raises, and what it had changed before raising stays
    changed. *)

Inductive Outcome (A : Type) :=
| Return (a : A)
| Raise (e : Exn).
Arguments Return {A} a.
Arguments Raise {A} e.

Definition M (Obj A : Type) : Type :=
  Obj * list Event -> Outcome A * (Obj * list Event).

Definition ret {Obj A} (a : A) : M Obj A := fun w => (Return a, w).

Definition raise {Obj A} (e : Exn) : M Obj A := fun w => (Raise e, w).

Definition bind {Obj A B} (m : M Obj A) (k : A -> M Obj B) : M Obj B :=
  fun w =>
    match m w with
    | (Return a, w') => k a w'
    | (Raise e, w') => (Raise e, w')
    end.

Definition get {Obj} : M Obj Obj := fun w => (Return (fst w), w).

Definition modify {Obj} (f : Obj -> Obj) : M Obj unit :=
  fun w => (Return tt, (f (fst w), snd w)).

Definition emit {Obj} (e : Event) : M Obj unit :=
  fun w => (Return tt, (fst w, snd w ++ [e])).

Definition history {Obj} : M Obj (list Event) := fun w => (Return (snd w), w).

Declare Scope monad_scope.
Delimit Scope monad_scope with monad.
Notation "x <- m ;; k" := (bind m (fun x => k))
  (at level 61, m at next level, right associativity) : monad_scope.
Notation "m ;; k" := (bind m (fun _ => k))
  (at level 61, right associativity) : monad_scope.
Local Open Scope monad_scope.

Definition outcome {Obj A} (r : Outcome A * (Obj * list Event)) : Outcome A := fst r.
Definition object {Obj A} (r : Outcome A * (Obj * list Event)) : Obj := fst (snd r).
Definition trace {Obj A} (r : Outcome A * (Obj * list Event)) : list Event := snd (snd r).

(** ** The cursor and the connection *)

(** What the file takes from outside. *)
Class Environment := {
  (** The pool of [.pool], which is not part of this file: any pool
      will do.  [pull] hands out a handle or raises, [push] takes one
      back and may raise, [cleanup] shuts the pool down. *)
  Pool : Type;
  pool_pull : Pool -> (Exn + Client) * Pool;
  pool_push : Client -> Pool -> option Exn * Pool;
  pool_cleanup : Pool -> Pool;
  (** Whether [clickhouse_driver.numpy.result] can be imported. *)
  numpy_installed : bool;
  (** The server behind the handle: its answer to a call, given the
      handle and everything that happened before. *)
  handle : list Event -> Client -> Call -> Answer;
  (** [client.substitute_params(query, params, context)]: the final
      literal statement, or the error it raises. *)
  substitute_params : Client -> str -> option Params -> Exn + str;
  (** [settings.CLICKHOUSE_ENABLE_UPDATE_ROWCOUNT], [None] when the
      setting is absent. *)
  CLICKHOUSE_ENABLE_UPDATE_ROWCOUNT : option bool;
  (** [str.upper()] on the code points above U+00FF. *)
  upper_above_latin1 : char -> str
}.

Section Driver.

Context {env : Environment}.

Record Connection := mkConnection {
  pool : Pool;
  is_closed : bool;
  _hosts : option Hosts
}.

(** The states of the DB API cursor. *)
Inductive States := NONE | RUNNING | FINISHED | CURSOR_CLOSED.

Definition States_eqb (a b : States) : bool :=
  match a, b with
  | NONE, NONE | RUNNING, RUNNING | FINISHED, FINISHED
  | CURSOR_CLOSED, CURSOR_CLOSED => true
  | _, _ => false
  end.

Record Cursor := mkCursor {
  _state : States;
  _rows : option (list Row);
  _rowcount : Value;
  columnar : option bool;
  _client : Client;
  _connection : Connection
}.

Definition set_state (st : States) (c : Cursor) : Cursor :=
  mkCursor st (_rows c) (_rowcount c) (columnar c) (_client c) (_connection c).
Definition set_rows (r : option (list Row)) (c : Cursor) : Cursor :=
  mkCursor (_state c) r (_rowcount c) (columnar c) (_client c) (_connection c).
Definition set_rowcount (v : Value) (c : Cursor) : Cursor :=
  mkCursor (_state c) (_rows c) v (columnar c) (_client c) (_connection c).
Definition set_columnar (v : option bool) (c : Cursor) : Cursor :=
  mkCursor (_state c) (_rows c) (_rowcount c) v (_client c) (_connection c).
Definition set_client (h : Client) (c : Cursor) : Cursor :=
  mkCursor (_state c) (_rows c) (_rowcount c) (columnar c) h (_connection c).
Definition set_connection (k : Connection) (c : Cursor) : Cursor :=
  mkCursor (_state c) (_rows c) (_rowcount c) (columnar c) (_client c) k.

Definition set_client_use_numpy (v : bool) (h : Client) : Client :=
  mkClient (client_id h) v (query_result_cls h) (iter_query_result_cls h)
           (progress_query_result_cls h) (hosts h).
Definition set_result_classes (k : ResultCls) (h : Client) : Client :=
  mkClient (client_id h) (client_use_numpy h) k k k (hosts h).
Definition set_client_hosts (hs : Hosts) (h : Client) : Client :=
  mkClient (client_id h) (client_use_numpy h) (query_result_cls h)
           (iter_query_result_cls h) (progress_query_result_cls h) hs.

(** *** The base class [clickhouse_driver.dbapi.cursor.Cursor] *)

(** Modelled from the spec: the base cursor's state after
    construction or [_reset_state()] (the base class is imported, not
    defined, here): no query in flight, no rows, row count -1. *)
Definition _reset_state : M Cursor unit :=
  modify (fun c => set_rowcount (VInt (-1)) (set_rows None (set_state NONE c))).

(** Modelled from the spec: the constructor of the base cursor, which
    binds the handle and the connection and resets the state. *)
Definition Cursor_init (client : Client) (connection : Connection) : Cursor :=
  mkCursor NONE None (VInt (-1)) None client connection.

(** Modelled from the spec: execution is only permitted while the
    cursor is not closed; the error is raised before anything else
    happens. *)
Definition _check_cursor_closed : M Cursor unit :=
  c <- get ;;
  if States_eqb (_state c) CURSOR_CLOSED
  then raise (InterfaceError "cursor already closed")
  else ret tt.

(** Modelled from the spec: the keyword arguments the base cursor
    prepares for [client.execute]; none of them is [columnar]. *)
Definition super_prepare : M Cursor (option bool) := ret None.

(** Modelled from the spec: driving the bound handle with one call.
    The call is recorded, and a driver error surfaces as
    [OperationalError]. *)
Definition client_execute (call : Call) : M Cursor Response :=
  c <- get ;;
  tr <- history ;;
  emit (Sent call) ;;
  match handle tr (_client c) call with
  | Reply r => ret r
  | DriverError => raise OperationalError
  end.

(** Modelled from the spec: collecting the results of a call.  A bare
    count becomes the row count; rows with a column header set the
    row count to their number; a statement that sends no header (DDL,
    mutations) leaves the row count as it was. *)
Definition _process_response (response : Response) : M Cursor unit :=
  match response with
  | RInt n => modify (fun c => set_rowcount (VInt n) (set_rows (Some []) c))
  | RResult rows [] => modify (set_rows (Some rows))
  | RResult rows (_ :: _) =>
      modify (fun c => set_rowcount (VInt (len_rows rows)) (set_rows (Some rows) c))
  end.

(** Modelled from the spec: marking the query as started and as
    finished. *)
Definition _begin_query : M Cursor unit := modify (set_state RUNNING).
Definition _end_query : M Cursor unit := modify (set_state FINISHED).

(** Modelled from the spec: the next row of the last result, [None]
    when there is none left; an error when no query has been run. *)
Definition fetchone : M Cursor (option Row) :=
  c <- get ;;
  if States_eqb (_state c) NONE
  then raise (ProgrammingError "no results to fetch")
  else
    match _rows c with
    | Some (r :: rest) => modify (set_rows (Some rest)) ;; ret (Some r)
    | _ => ret None
    end.

(** *** [Cursor] (lines 75 to 171) *)

(** The [closed] property. *)
Definition closed (c : Cursor) : bool := States_eqb (_state c) CURSOR_CLOSED.

Definition set_pool (p : Pool) (k : Connection) : Connection :=
  mkConnection p (is_closed k) (_hosts k).
Definition set_is_closed (b : bool) (k : Connection) : Connection :=
  mkConnection (pool k) b (_hosts k).
Definition set_hosts (h : option Hosts) (k : Connection) : Connection :=
  mkConnection (pool k) (is_closed k) h.

(** [self._connection.pool.push(self._client)] *)
Definition push_client : M Cursor unit :=
  c <- get ;;
  emit (Pushed (_client c)) ;;
  let (err, p) := pool_push (_client c) (pool (_connection c)) in
  modify (set_connection (set_pool p (_connection c))) ;;
  match err with
  | Some e => raise e
  | None => ret tt
  end.

(** [Cursor.close]: push the client back to the connection pool. *)
Definition close : M Cursor unit :=
  c <- get ;;
  if closed c then ret tt
  else
    modify (set_state CURSOR_CLOSED) ;;
    push_client.

(** The [use_numpy] property: its getter ... *)
Definition use_numpy (c : Cursor) : bool := client_use_numpy (_client c).

(** ... and its setter. *)
Definition use_numpy_setter (value : bool) : M Cursor unit :=
  modify (fun c => set_client (set_client_use_numpy value (_client c)) c) ;;
  if value then
    if numpy_installed
    then modify (fun c => set_client (set_result_classes Numpy (_client c)) c)
    else raise (RuntimeError "Extras for NumPy must be installed")
  else modify (fun c => set_client (set_result_classes Plain (_client c)) c).

(** [with self.set_query_execution_args(columnar, use_numpy): body].
    The method is a generator wrapped by [contextmanager]: what
    precedes [yield] runs on entry, [body] runs at the [yield], and
    what follows runs when [body] returns.  An exception of [body] is
    thrown into the generator at the [yield]; no handler encloses it,
    so the generator ends there and the exception goes on. *)
Definition set_query_execution_args {A} (new_columnar new_use_numpy : option bool)
    (body : M Cursor A) : M Cursor A :=
  c <- get ;;
  let original_use_numpy := use_numpy c in
  match new_use_numpy with
  | Some v => use_numpy_setter v
  | None => ret tt
  end ;;
  c <- get ;;
  let original_columnar := columnar c in
  match new_columnar with
  | Some v => modify (set_columnar (Some v))
  | None => ret tt
  end ;;
  r <- body ;;
  use_numpy_setter original_use_numpy ;;
  modify (set_columnar original_columnar) ;;
  ret r.

(** [Cursor.__del__]: release the handle when someone forgot to call
    [close]. *)
Definition __del__ : M Cursor unit :=
  c <- get ;;
  if negb (closed c) then close else ret tt.

(** [Cursor._prepare]: the base class arguments plus [columnar]. *)
Definition _prepare : M Cursor (option bool) :=
  execute_kwargs <- super_prepare ;;
  c <- get ;;
  match columnar c with
  | Some v => ret (Some v)
  | None => ret execute_kwargs
  end.

(** Modelled from the spec: [execute] of the base cursor.  It is only
    valid on an open cursor; it drives the bound handle with the
    statement and collects the results, which may update the row
    count. *)
Definition super_execute (operation : str) (parameters : option Params)
    : M Cursor unit :=
  _check_cursor_closed ;;
  _begin_query ;;
  execute_kwargs <- _prepare ;;
  response <- client_execute (mkCall operation parameters execute_kwargs) ;;
  _process_response response ;;
  _end_query.

(** [s.upper()] *)
Definition upper (s : str) : str := upper_with upper_above_latin1 s.

(** Every code point of [s] is a single code point when upper-cased,
    so that an index into [s.upper()] is an index into [s]. *)
Definition keeps_length (s : str) : Prop :=
  Forall (fun c => List.length (upper_char upper_above_latin1 c) = 1) s.

(** Lines 159 to 166 of [Cursor.execute]: the WHERE predicate of the
    substituted statement, [None] when [i > 0] fails. *)
Definition where_clause (query : str) : option str :=
  let query_upper := upper query in
  let i := rfind query_upper (lit " WHERE ") in
  if (i >? 0)%Z then
    let j := rfind_from query_upper (lit " SETTINGS ") (i + 7) in
    if (j >? 0)%Z then Some (slice query (i + 7) j)
    else Some (slice_from query (i + 7))
  else None.

(** The probe of line 167. *)
Definition probe_query (table where_ : str) : str :=
  lit "select count(*) from " ++ table ++ lit " where " ++ where_.

(** [getattr(settings, "CLICKHOUSE_ENABLE_UPDATE_ROWCOUNT", True)] *)
Definition update_rowcount_enabled : bool :=
  match CLICKHOUSE_ENABLE_UPDATE_ROWCOUNT with
  | Some b => b
  | None => true
  end.

(** [self._client.substitute_params(operation, parameters, context)] *)
Definition substitute (operation : str) (parameters : option Params)
    : M Cursor str :=
  c <- get ;;
  match substitute_params (_client c) operation parameters with
  | inl e => raise e
  | inr query => ret query
  end.

(** [m.group(1)], an [AttributeError] when [m] is [None]. *)
Definition group1 (m : option str) : M Cursor str :=
  match m with
  | Some table => ret table
  | None => raise AttributeError
  end.

(** [(rowcount,) = row] *)
Definition unpack1 (row : option Row) : M Cursor Value :=
  match row with
  | None => raise TypeError
  | Some [v] => ret v
  | Some _ => raise ValueError
  end.

(** The [if] statement of lines 151 to 170: the row-count emulation
    that precedes the statement itself. *)
Definition emulate_rowcount (operation : str) (parameters : option Params)
    : M Cursor unit :=
  if update_rowcount_enabled && matches operation then
    query <- substitute operation parameters ;;
    table <- group1 (update_pattern_match query) ;;
    match where_clause query with
    | Some where_ =>
        super_execute (probe_query table where_) None ;;
        row <- fetchone ;;
        rowcount <- unpack1 row ;;
        _reset_state ;;
        modify (set_rowcount rowcount)
    | None => ret tt
    end
  else ret tt.

(** [Cursor.execute] *)
Definition execute (operation : str) (parameters : option Params)
    : M Cursor unit :=
  emulate_rowcount operation parameters ;;
  super_execute operation parameters.

(** *** [Connection] (lines 174 to 213) *)

(** [Connection._make_client]: [self.pool.pull()] *)
Definition _make_client : M Connection Client :=
  k <- get ;;
  emit Pulled ;;
  let (r, p) := pool_pull (pool k) in
  modify (set_pool p) ;;
  match r with
  | inl e => raise e
  | inr client => ret client
  end.

(** [Connection.close] *)
Definition Connection_close : M Connection unit :=
  emit CleanedUp ;;
  modify (fun k => set_pool (pool_cleanup (pool k)) k) ;;
  modify (set_is_closed true).

(** [Connection.cursor]; [cursor_factory] is [None] for the default. *)
Definition cursor (cursor_factory : option (Client -> Connection -> Cursor))
    : M Connection Cursor :=
  k <- get ;;
  if is_closed k then raise (InterfaceError "connection already closed")
  else
    client <- _make_client ;;
    k <- get ;;
    client <- match _hosts k with
              | None => modify (set_hosts (Some (hosts client))) ;; ret client
              | Some hs => ret (set_client_hosts hs client)
              end ;;
    let cursor_factory :=
      match cursor_factory with
      | Some f => f
      | None => Cursor_init
      end in
    k <- get ;;
    ret (cursor_factory client k).

End Driver.

(** ** The patched [send_query] (lines 20 to 68) *)

Definition Settings := list (str * Value).

(** [self.context]: the settings of the query and
    [client_settings["server_side_params"]]. *)
Record Context := mkContext {
  settings : Settings;
  server_side_params : bool
}.

Record ClientInfo := mkClientInfo {
  info_client_name : str;
  info_context : Context;
  info_client_revision : Z;
  query_kind : Z
}.

(** What goes to [self.fout], call by call. *)
Inductive Write :=
| write_varint (n : Z)
| write_binary_str (s : str)
| client_info_write (info : ClientInfo) (revision : Z)
| write_settings (s : Settings) (settings_as_strings : bool) (flags : Z)
| flush.

(** The driver's connection object. *)
Record DriverConnection := mkDriverConnection {
  connected : bool;
  used_revision : Z;            (* self.server_info.used_revision *)
  client_name : str;
  client_revision : Z;
  context : Context;
  settings_is_important : bool;
  compression : Z;
  fout : list Write
}.

Definition set_fout (o : list Write) (c : DriverConnection) : DriverConnection :=
  mkDriverConnection (connected c) (used_revision c) (client_name c)
    (client_revision c) (context c) (settings_is_important c) (compression c) o.

(** The constants and routines of the driver library and of
    [.escape] that [send_query] uses. *)
Class Protocol := {
  QUERY : Z;                                   (* ClientPacketTypes.QUERY *)
  COMPLETE : Z;                                (* QueryProcessingStage.COMPLETE *)
  INITIAL_QUERY : Z;                           (* ClientInfo.QueryKind.INITIAL_QUERY *)
  IMPORTANT : Z;                               (* SettingsFlags.IMPORTANT *)
  CUSTOM : Z;                                  (* SettingsFlags.CUSTOM *)
  DBMS_MIN_REVISION_WITH_CLIENT_INFO : Z;
  DBMS_MIN_REVISION_WITH_SETTINGS_SERIALIZED_AS_STRINGS : Z;
  DBMS_MIN_REVISION_WITH_INTERSERVER_SECRET : Z;
  DBMS_MIN_PROTOCOL_VERSION_WITH_PARAMETERS : Z;
  (** [self.connect()]: the connected object, or the error. *)
  connect : DriverConnection -> Exn + DriverConnection;
  (** [escape_params(params, context, for_server=...)] *)
  escape_params : Params -> Context -> bool -> Settings
}.

Section Wire.

Context {proto : Protocol}.

Definition write (w : Write) : M DriverConnection unit :=
  modify (fun c => set_fout (fout c ++ [w]) c).

Definition do_connect : M DriverConnection unit :=
  fun w =>
    match connect (fst w) with
    | inl e => (Raise e, w)
    | inr c => (Return tt, (c, snd w))
    end.

(** Lines 24 to 68: the packet, written on an object that is
    connected by now. *)
Definition write_query_packet (query : str) (query_id : option str)
    (params : option Params) : M DriverConnection unit :=
  write (write_varint QUERY) ;;
  write (write_binary_str (match query_id with Some q => q | None => [] end)) ;;
  c <- get ;;
  let revision := used_revision c in
  (if (revision >=? DBMS_MIN_REVISION_WITH_CLIENT_INFO)%Z then
     let client_info :=
       mkClientInfo (client_name c) (context c) (client_revision c)
                    INITIAL_QUERY in
     write (client_info_write client_info revision)
   else ret tt) ;;
  let settings_as_strings :=
    (revision >=? DBMS_MIN_REVISION_WITH_SETTINGS_SERIALIZED_AS_STRINGS)%Z in
  let settings_flags :=
    if settings_is_important c then Z.lor 0 IMPORTANT else 0%Z in
  write (write_settings (settings (context c)) settings_as_strings
                        settings_flags) ;;
  (if (revision >=? DBMS_MIN_REVISION_WITH_INTERSERVER_SECRET)%Z
   then write (write_binary_str []) else ret tt) ;;
  write (write_varint COMPLETE) ;;
  write (write_varint (compression c)) ;;
  write (write_binary_str query) ;;
  (if (revision >=? DBMS_MIN_PROTOCOL_VERSION_WITH_PARAMETERS)%Z then
     let escaped :=
       if server_side_params (context c)
       then escape_params (match params with Some p => p | None => [] end)
                          (context c) true
       else [] in
     write (write_settings escaped true CUSTOM)
   else ret tt) ;;
  write flush.

(** [send_query]: connect when needed (lines 21 and 22), then write
    the packet. *)
Definition send_query (query : str) (query_id : option str)
    (params : option Params) : M DriverConnection unit :=
  c <- get ;;
  (if negb (connected c) then do_connect else ret tt) ;;
  write_query_packet query query_id params.

(** The connection [send_query] writes on: the object itself when it
    is connected, what [connect] makes of it otherwise. *)
Definition connected_object (c : DriverConnection) : Exn + DriverConnection :=
  if connected c then inr c else connect c.



End Wire.

(** ** Running several calls, and looking at what a call sent *)

(** The object and trace a call leaves behind, whether it returned or
    raised. *)
Definition after {Obj A} (m : M Obj A) (w : Obj * list Event) : Obj * list Event :=
  snd (m w).

(** [n] calls in a row, each one made whatever the one before did. *)
Fixpoint repeatedly {Obj A} (n : nat) (m : M Obj A) (w : Obj * list Event)
    : Obj * list Event :=
  match n with
  | O => w
  | S n' => repeatedly n' m (after m w)
  end.

(** The calls the handle received while [m] ran. *)
Definition calls_during {Obj A} (m : M Obj A) (w : Obj * list Event) : list Call :=
  sent (skipn (List.length (snd w)) (snd (after m w))).

(** The two ways a cursor lets go of its handle. *)
Inductive Release := ByClose | ByDel.

Definition release {env : Environment} (r : Release) : M Cursor unit :=
  match r with
  | ByClose => close
  | ByDel => __del__
  end.

Fixpoint lifecycle {env : Environment} (rs : list Release)
    (w : Cursor * list Event) : Cursor * list Event :=
  match rs with
  | [] => w
  | r :: rs' => lifecycle rs' (after (release r) w)
  end.

(** What one [close] leaves behind on a cursor that is not closed. *)
Definition closed_by_close {env : Environment} (c : Cursor) (tr : list Event) : Cursor * list Event :=
  (set_connection
     (set_pool (snd (pool_push (_client c) (pool (_connection c))))
               (_connection c))
     (set_state CURSOR_CLOSED c),
   tr ++ [Pushed (_client c)]).

(** The cursor as the emulation leaves it before the statement runs:
    reset, with the probe's value as its row count. *)
Definition primed {env : Environment} (n : Value) (c : Cursor) : Cursor :=
  set_rowcount n (set_rows None (set_state NONE c)).

(** The statement is emulated: the handle answers the count probe on
    some table and predicate with a single value, the statement is
    then executed by the base [execute] on the cursor that has that
    value as its row count, and the handle has received the probe and
    then the statement. *)
Definition emulates_with_probe {env : Environment} (operation : str)
    (parameters : option Params) (w : Cursor * list Event) : Prop :=
  exists (table predicate : str) (n : Value) (header : list (str * str)),
    let probe :=
      mkCall (lit "select count(*) from " ++ table ++ lit " where "
              ++ predicate) None (columnar (fst w)) in
    let original := mkCall operation parameters (columnar (fst w)) in
    handle (snd w) (_client (fst w)) probe = Reply (RResult [[n]] header)
    /\ execute operation parameters w
       = super_execute operation parameters
           (primed n (fst w), snd w ++ [Sent probe])
    /\ calls_during (execute operation parameters) w = [probe; original].

(** The statement is sent exactly once, as it was given. *)
Definition executes_original_once {env : Environment} (operation : str)
    (parameters : option Params) (w : Cursor * list Event) : Prop :=
  let original := mkCall operation parameters (columnar (fst w)) in
  exists before later,
    calls_during (execute operation parameters) w = before ++ original :: later
    /\ ~ In original before /\ ~ In original later.

(** ** A concrete setting *)

Module Demo.

(** Modelled from the spec: the connection pool (its module is not
    part of this file).  It owns the idle handles and counts the live
    ones; [pull] reuses an idle handle, else creates one below
    [max_size], else fails; [push] pools the handle, or closes it when
    the pool is closed; [cleanup] closes the pool and every idle
    handle. *)
Record SpecPool := mkSpecPool {
  idle : list Client;
  live : nat;
  max_size : nat;
  pool_closed : bool
}.

Definition localhost : Hosts := [(lit "localhost", 9000%Z)].

Definition new_handle (n : nat) : Client :=
  mkClient (N.of_nat n) false Plain Plain Plain localhost.

Definition PoolExhausted : Exn := OtherError 1.

Definition spec_pull (p : SpecPool) : (Exn + Client) * SpecPool :=
  match idle p with
  | h :: rest => (inr h, mkSpecPool rest (live p) (max_size p) (pool_closed p))
  | [] =>
      if Nat.ltb (live p) (max_size p)
      then (inr (new_handle (live p)),
            mkSpecPool [] (S (live p)) (max_size p) (pool_closed p))
      else (inl PoolExhausted, p)
  end.

Definition spec_push (h : Client) (p : SpecPool) : option Exn * SpecPool :=
  if pool_closed p
  then (None, mkSpecPool (idle p) (Nat.pred (live p)) (max_size p) true)
  else (None, mkSpecPool (h :: idle p) (live p) (max_size p) false).

Definition spec_cleanup (p : SpecPool) : SpecPool :=
  mkSpecPool [] (live p - List.length (idle p)) (max_size p) true.

(** The probe of the scenario, and a server that has seven rows with
    [id > 5] in its table t: it answers that probe with 7 and accepts
    every ALTER TABLE statement without sending a column header. *)
Definition count_probe : str := probe_query (quoted (lit "t")) (lit "id > 5").

Definition server (tr : list Event) (h : Client) (call : Call) : Answer :=
  if str_eqb (call_query call) count_probe
  then Reply (RResult [[VInt 7]] [(lit "count()", lit "UInt64")])
  else if startswith (lit "ALTER TABLE ") (call_query call)
  then Reply (RResult [] [])
  else DriverError.

(** A server on which the user may alter but not select. *)
Definition server_without_select (tr : list Event) (h : Client) (call : Call)
    : Answer :=
  if startswith (lit "select") (call_query call)
  then DriverError
  else Reply (RResult [] []).

(** No code point above U+00FF changes when upper-cased. *)
Definition unchanged (c : char) : str := [c].

(** Statements without placeholders stay as they are. *)
Definition no_placeholders (h : Client) (operation : str)
    (parameters : option Params) : Exn + str := inr operation.

Definition demo_env : Environment :=
  Build_Environment SpecPool spec_pull spec_push spec_cleanup
    true server no_placeholders None unchanged.

Definition env_without_numpy : Environment :=
  Build_Environment SpecPool spec_pull spec_push spec_cleanup
    false server no_placeholders None unchanged.

Definition env_without_select : Environment :=
  Build_Environment SpecPool spec_pull spec_push spec_cleanup
    true server_without_select no_placeholders None unchanged.

Definition env_emulation_off : Environment :=
  Build_Environment SpecPool spec_pull spec_push spec_cleanup
    true server_without_select no_placeholders (Some false) unchanged.

Definition fresh_pool : SpecPool := mkSpecPool [] 1 100 false.

Definition open_connection {env : Environment} (p : Pool) : Connection :=
  mkConnection p false None.

(** A cursor just made on handle 0. *)
Definition fresh_cursor {env : Environment} (p : Pool) : Cursor :=
  Cursor_init (new_handle 0) (open_connection p).

Definition scenario_cursor : Cursor (env := demo_env) :=
  fresh_cursor (env := demo_env) fresh_pool.

(** The statements of the scenarios. *)
Definition update_t : str :=
  lit "ALTER TABLE " ++ quoted (lit "t") ++ lit " UPDATE x = 1".

Definition update_t_where : str := update_t ++ lit " WHERE id > 5".

Definition sharp_s : char := 223%N.

Definition update_sharp_s : str :=
  lit "ALTER TABLE " ++ quoted (lit "t") ++ lit " UPDATE x = '" ++ [sharp_s]
  ++ lit "' WHERE id > 5 SETTINGS max_threads = 2".

End Demo.

(** ** What [execute] leaves alone, and what the setter keeps *)

(** From [w] to [w']: the cursor has the same handle, the same
    connection (and pool) and the same [columnar] option, is closed
    exactly when it was, and the trace has only gained calls to the
    handle, each carrying that [columnar] option. *)
Definition undisturbed {env : Environment} (w w' : Cursor * list Event)
    : Prop :=
  _client (fst w') = _client (fst w)
  /\ _connection (fst w') = _connection (fst w)
  /\ columnar (fst w') = columnar (fst w)
  /\ closed (fst w') = closed (fst w)
  /\ exists calls,
       snd w' = snd w ++ map Sent calls
       /\ Forall (fun k => call_columnar k = columnar (fst w)) calls.

(** The three result classes are the NumPy ones exactly when
    [use_numpy] reads true. *)
Definition classes_follow_setting {env : Environment} (c : Cursor) : Prop :=
  let k := if use_numpy c then Numpy else Plain in
  query_result_cls (_client c) = k
  /\ iter_query_result_cls (_client c) = k
  /\ progress_query_result_cls (_client c) = k.

(** The host list a new cursor's handle gets: the cached one, or the
    handle's own when nothing is cached yet. *)
Definition hosts_for {env : Environment} (k : Connection) (h : Client) : Hosts :=
  match _hosts k with
  | Some hs => hs
  | None => hosts h
  end.

(** ** [Connection.__init__]: the keyword arguments (lines 178, 179) *)

Definition Kwargs := list (str * Value).

(** [d.get(k)] *)
Fixpoint dict_get (k : str) (d : Kwargs) : option Value :=
  match d with
  | [] => None
  | (k', v) :: d' => if str_eqb k k' then Some v else dict_get k d'
  end.

(** [d.setdefault(k, v)]: a key that is there keeps its value. *)
Definition setdefault (k : str) (v : Value) (d : Kwargs) : Kwargs :=
  match dict_get k d with
  | Some _ => d
  | None => d ++ [(k, v)]
  end.

(** The keyword arguments [Connection.__init__] hands on to the base
    constructor. *)
Definition init_kwargs (kwargs : Kwargs) : Kwargs :=
  setdefault (lit "connections_max") (VInt 100)
    (setdefault (lit "connections_min") (VInt 10) kwargs).

(** ** More concrete settings *)

Module Setting.

(** A substitution that knows one template, the update of a table
    whose name is the parameter t: it needs that parameter and puts
    it in between single quotes. *)
Definition template : str :=
  lit "ALTER TABLE " ++ quoted (lit "%(t)s") ++ lit " UPDATE x = 1".

Definition fill_template (h : Client) (operation : str)
    (parameters : option Params) : Exn + str :=
  if str_eqb operation template then
    match parameters with
    | Some [(_, VStr v)] =>
        inr (lit "ALTER TABLE " ++ quoted (lit "'" ++ v ++ lit "'")
             ++ lit " UPDATE x = 1")
    | _ => inl TypeError
    end
  else inr operation.

Definition env_with_template : Environment :=
  Build_Environment Demo.SpecPool Demo.spec_pull Demo.spec_push
    Demo.spec_cleanup true Demo.server fill_template None Demo.unchanged.

(** A protocol instance, with a server of revision 54460 behind
    [connect] and parameters escaped as they are. *)
Definition protocol : Protocol :=
  Build_Protocol 1 2 1 1 2 54032 54429 54441 54459
    (fun c => inr (mkDriverConnection true 54460 (client_name c)
                     (client_revision c) (context c)
                     (settings_is_important c) (compression c) (fout c)))
    (fun params _ _ => params).

Definition offline : DriverConnection :=
  mkDriverConnection false 0 (lit "python-driver") 54460
    (mkContext [] false) false 0 [].

End Setting.

(** * Properties *)

(** ** Text *)

Section Text.

Context {env : Environment}.

Local Open Scope Z_scope.

Lemma startswith_app (p r : str) : startswith p (p ++ r) = true.
Proof.
  induction p as [|x p IH]; simpl; [reflexivity|].
  now rewrite N.eqb_refl.
Qed.

Lemma startswith_split (p s : str) :
  startswith p s = true -> exists r, s = p ++ r.
Proof.
  revert s; induction p as [|x p IH]; intros s H.
  - now exists s.
  - destruct s as [|y s]; simpl in H; [discriminate|].
    apply andb_true_iff in H as [Hxy Hp].
    apply N.eqb_eq in Hxy; subst y.
    destruct (IH _ Hp) as [r ->].
    now exists r.
Qed.


(** [rfind] answers -1 or an index at which [sub] does occur. *)
Lemma rfind_at_sound (sub s : str) (k start : Z) :
  0 <= k ->
  let r := rfind_at sub s k start in
  r = -1 \/
  (k <= r /\ start <= r /\ r <= k + len s
   /\ startswith sub (skipn (Z.to_nat (r - k)) s) = true).
Proof.
  revert k; induction s as [|c s IH]; intros k Hk; cbn zeta.
  - simpl.
    destruct (startswith sub []) eqn:Hs; simpl; [|now left].
    destruct (start <=? k) eqn:Hle; [|now left].
    right. apply Z.leb_le in Hle.
    rewrite Z.sub_diag. simpl. unfold len; simpl. repeat split; try lia; assumption.
  - simpl rfind_at.
    specialize (IH (k + 1) ltac:(lia)). cbn zeta in IH.
    destruct (0 <=? rfind_at sub s (k + 1) start) eqn:Hr.
    + apply Z.leb_le in Hr.
      destruct IH as [IH|(H1 & H2 & H3 & H4)]; [lia|].
      right. unfold len in *. simpl List.length. repeat split; try lia.
      replace (Z.to_nat (rfind_at sub s (k + 1) start - k))
        with (S (Z.to_nat (rfind_at sub s (k + 1) start - (k + 1)))) by lia.
      exact H4.
    + destruct (startswith sub (c :: s)) eqn:Hs; simpl; [|now left].
      destruct (start <=? k) eqn:Hle; [|now left].
      apply Z.leb_le in Hle. right.
      rewrite Z.sub_diag. unfold len. simpl List.length.
      repeat split; try lia. exact Hs.
Qed.

(** [rfind] finds [sub] when it occurs. *)
Lemma rfind_at_complete (sub pre post : str) (k start : Z) :
  0 <= k -> start <= k ->
  0 <= rfind_at sub (pre ++ sub ++ post) k start.
Proof.
  revert k; induction pre as [|c pre IH]; intros k Hk Hs.
  - simpl app.
    assert (Hp : startswith sub (sub ++ post) = true) by apply startswith_app.
    destruct (sub ++ post) as [|c s] eqn:E.
    + simpl. rewrite Hp. apply Z.leb_le in Hs. rewrite Hs. simpl. lia.
    + simpl rfind_at.
      destruct (0 <=? rfind_at sub s (k + 1) start) eqn:Hr.
      * now apply Z.leb_le in Hr.
      * rewrite Hp. apply Z.leb_le in Hs. rewrite Hs. simpl. lia.
  - simpl app. simpl rfind_at.
    specialize (IH (k + 1) ltac:(lia) ltac:(lia)).
    apply Z.leb_le in IH. rewrite IH.
    now apply Z.leb_le.
Qed.


Lemma occurs_rfind (s sub : str) :
  occurs sub s -> 0 <= rfind s sub.
Proof.
  intros (pre & post & ->). apply rfind_at_complete; lia.
Qed.

(** A statement of the shape starts with the letter A, and so does
    its upper-cased text. *)
Lemma matches_head (s : str) :
  matches s = true -> exists rest, s = 65%N :: rest.
Proof.
  unfold matches, update_pattern_match. intros H.
  destruct (startswith (lit "ALTER TABLE ") s) eqn:Hs; [|discriminate].
  destruct (startswith_split _ _ Hs) as [r ->].
  now exists (tl (lit "ALTER TABLE ") ++ r).
Qed.

Lemma update_pattern_match_matches (s table : str) :
  update_pattern_match s = Some table -> matches s = true.
Proof. unfold matches. now intros ->. Qed.

(** With the shape and a WHERE token in the upper-cased text, the
    guard [i > 0] holds and a predicate is cut out. *)
Lemma where_clause_found (query : str) :
  matches query = true ->
  occurs (lit " WHERE ") (upper query) ->
  exists where_, where_clause query = Some where_.
Proof.
  intros Hm Hocc.
  destruct (matches_head _ Hm) as [rest ->].
  unfold where_clause. cbn zeta.
  pose proof (occurs_rfind _ _ Hocc) as Hi.
  assert (Hnz : rfind (upper (65%N :: rest)) (lit " WHERE ") <> 0).
  { intros E.
    destruct (rfind_at_sound (lit " WHERE ") (upper (65%N :: rest)) 0 0 ltac:(lia))
      as [E'|(_ & _ & _ & Hs)].
    - unfold rfind, rfind_from in E. lia.
    - unfold rfind, rfind_from in E. rewrite E in Hs. simpl in Hs. discriminate. }
  replace (rfind (upper (65%N :: rest)) (lit " WHERE ") >? 0) with true
    by (symmetry; apply Z.gtb_lt; lia).
  destruct (_ >? 0); eauto.
Qed.


(** *** Text that keeps its length when upper-cased *)

Lemma upper_app (a b : str) : upper (a ++ b) = upper a ++ upper b.
Proof. unfold upper, upper_with. apply flat_map_app. Qed.

Lemma upper_keeps_length (s : str) :
  keeps_length s -> List.length (upper s) = List.length s.
Proof.
  unfold upper, upper_with. induction 1 as [|c s Hc _ IH]; simpl; [reflexivity|].
  rewrite length_app, Hc, IH. reflexivity.
Qed.

Lemma rfind_at_app (sub l1 l2 : str) (k start : Z) :
  0 <= rfind_at sub l2 (k + len l1) start ->
  rfind_at sub (l1 ++ l2) k start = rfind_at sub l2 (k + len l1) start.
Proof.
  revert k; induction l1 as [|c l1 IH]; intros k H.
  - simpl. unfold len in *. simpl in *. now rewrite Z.add_0_r in *.
  - simpl app. simpl rfind_at.
    assert (E : k + len (c :: l1) = k + 1 + len l1)
      by (unfold len; simpl List.length; lia).
    rewrite E in *. rewrite (IH (k + 1) H).
    apply Z.leb_le in H. now rewrite H.
Qed.

Lemma rfind_at_low_start (sub s : str) (k start start' : Z) :
  start <= k -> start' <= k ->
  rfind_at sub s k start = rfind_at sub s k start'.
Proof.
  revert k; induction s as [|c s IH]; intros k H H'; simpl.
  - apply Z.leb_le in H, H'. now rewrite H, H'.
  - rewrite (IH (k + 1)) by lia.
    apply Z.leb_le in H, H'. now rewrite H, H'.
Qed.

Lemma rfind_at_shift (sub s : str) (k d start : Z) :
  0 <= k -> 0 <= d ->
  rfind_at sub s (k + d) (start + d)
  = if 0 <=? rfind_at sub s k start then rfind_at sub s k start + d else -1.
Proof.
  revert k; induction s as [|c s IH]; intros k Hk Hd.
  - simpl.
    replace (start + d <=? k + d) with (start <=? k)
      by (destruct (Z.leb_spec start k), (Z.leb_spec (start + d) (k + d)); lia).
    destruct (startswith sub [] && (start <=? k)); simpl; [|reflexivity].
    destruct (Z.leb_spec 0 k); [reflexivity|lia].
  - simpl rfind_at.
    replace (k + d + 1) with (k + 1 + d) by lia.
    rewrite (IH (k + 1)) by lia.
    destruct (0 <=? rfind_at sub s (k + 1) start) eqn:Hr.
    + apply Z.leb_le in Hr.
      replace (0 <=? rfind_at sub s (k + 1) start + d) with true
        by (symmetry; apply Z.leb_le; lia).
      apply Z.leb_le in Hr. now rewrite Hr.
    + cbn [Z.leb Z.compare].
      replace (start + d <=? k + d) with (start <=? k)
        by (destruct (Z.leb_spec start k), (Z.leb_spec (start + d) (k + d)); lia).
      destruct (startswith sub (c :: s) && (start <=? k)); [|reflexivity].
      replace (0 <=? k) with true by (symmetry; apply Z.leb_le; lia).
      reflexivity.
Qed.

(** Searching a text that sits at offset [d] is searching it at
    offset 0 and adding [d]. *)
Lemma rfind_at_offset (sub s : str) (d start : Z) :
  0 <= d ->
  rfind_at sub s d start
  = if 0 <=? rfind_at sub s 0 (start - d)
    then rfind_at sub s 0 (start - d) + d else -1.
Proof.
  intros Hd. rewrite <- (rfind_at_shift sub s 0 d (start - d)) by lia.
  f_equal; lia.
Qed.

(** After a prefix that keeps its length, the statement of the
    scenario gives exactly its predicate. *)
Lemma where_clause_of_scenario_suffix (before : str) :
  before <> [] -> keeps_length before ->
  where_clause (before ++ lit " WHERE id > 5 SETTINGS max_threads = 2")
  = Some (lit "id > 5").
Proof.
  intros Hne Hk.
  set (suffix := lit " WHERE id > 5 SETTINGS max_threads = 2").
  set (SUFFIX := lit " WHERE ID > 5 SETTINGS MAX_THREADS = 2").
  assert (Hup : upper suffix = SUFFIX) by (vm_compute; reflexivity).
  assert (Hnat : List.length (upper before) = List.length before)
    by now apply upper_keeps_length.
  assert (HL : len (upper before) = len before)
    by (unfold len; now rewrite Hnat).
  assert (Hpos : 0 < len before).
  { unfold len. destruct before; [congruence|]. cbn [List.length]. lia. }
  remember (len before) as L eqn:HeqL.
  assert (Hw0 : rfind_at (lit " WHERE ") SUFFIX 0 0 = 0)
    by (vm_compute; reflexivity).
  assert (Hs0 : rfind_at (lit " SETTINGS ") SUFFIX 0 7 = 13)
    by (vm_compute; reflexivity).
  assert (Hi : rfind (upper (before ++ suffix)) (lit " WHERE ") = L).
  { unfold rfind, rfind_from. rewrite upper_app, Hup.
    assert (E : rfind_at (lit " WHERE ") SUFFIX (0 + len (upper before)) 0 = L).
    { rewrite HL, Z.add_0_l. rewrite rfind_at_offset by lia.
      rewrite (rfind_at_low_start _ _ 0 (0 - L) 0) by lia.
      rewrite Hw0. cbn [Z.leb Z.compare]. lia. }
    rewrite rfind_at_app; rewrite E; [reflexivity|lia]. }
  assert (Hj : rfind_from (upper (before ++ suffix)) (lit " SETTINGS ") (L + 7)
               = L + 13).
  { unfold rfind_from. rewrite upper_app, Hup.
    assert (E : rfind_at (lit " SETTINGS ") SUFFIX (0 + len (upper before))
                  (L + 7) = L + 13).
    { rewrite HL, Z.add_0_l. rewrite rfind_at_offset by lia.
      replace (L + 7 - L) with 7 by lia.
      rewrite Hs0. cbn [Z.leb Z.compare]. lia. }
    rewrite rfind_at_app; rewrite E; [reflexivity|lia]. }
  unfold where_clause. cbn zeta. rewrite Hi.
  replace (L >? 0) with true by (symmetry; apply Z.gtb_lt; lia).
  rewrite Hj.
  replace (L + 13 >? 0) with true by (symmetry; apply Z.gtb_lt; lia).
  f_equal. unfold slice, clip.
  assert (Hlen : len (before ++ suffix) = L + 38).
  { unfold len. rewrite length_app. rewrite HeqL. unfold len.
    change (List.length suffix) with 38%nat. lia. }
  rewrite Hlen.
  replace (L + 7 <? 0) with false by (symmetry; apply Z.ltb_ge; lia).
  replace (L + 13 <? 0) with false by (symmetry; apply Z.ltb_ge; lia).
  replace (Z.to_nat (Z.min (L + 7) (L + 38)))
    with (List.length before + 7)%nat by (unfold len in HeqL; lia).
  replace (Z.to_nat (Z.min (L + 13) (L + 38)))
    with (List.length before + 13)%nat by (unfold len in HeqL; lia).
  rewrite firstn_app_2, skipn_app.
  replace (List.length before + 7 - List.length before)%nat with 7%nat by lia.
  rewrite (skipn_all2 before) by lia.
  vm_compute. reflexivity.
Qed.

End Text.

(** ** The cursor's lifecycle *)

Ltac run :=
  unfold after, outcome, object, trace, bind, ret, raise, get, modify, emit,
    history; simpl.

Lemma pushes_app (a b : list Event) : pushes (a ++ b) = pushes a + pushes b.
Proof. unfold pushes. now rewrite filter_app, length_app. Qed.

Section Lifecycle.

Context {env : Environment}.

Lemma close_when_closed (c : Cursor) (tr : list Event) :
  closed c = true -> close (c, tr) = (Return tt, (c, tr)).
Proof. intros H. unfold close. run. now rewrite H. Qed.

Lemma close_when_open (c : Cursor) (tr : list Event) :
  closed c = false -> after close (c, tr) = closed_by_close c tr.
Proof.
  intros H. unfold close, push_client, closed_by_close. run. rewrite H. simpl.
  destruct (pool_push (_client c) (pool (_connection c))) as [[e|] p]; reflexivity.
Qed.

Lemma closed_by_close_closed (c : Cursor) (tr : list Event) :
  closed (fst (closed_by_close c tr)) = true.
Proof. reflexivity. Qed.

Lemma del_when_closed (c : Cursor) (tr : list Event) :
  closed c = true -> __del__ (c, tr) = (Return tt, (c, tr)).
Proof. intros H. unfold __del__. run. now rewrite H. Qed.

Lemma del_when_open (c : Cursor) (tr : list Event) :
  closed c = false -> after __del__ (c, tr) = closed_by_close c tr.
Proof.
  intros H. rewrite <- (close_when_open c tr H).
  unfold __del__. run. now rewrite H.
Qed.

Lemma release_when_closed (r : Release) (c : Cursor) (tr : list Event) :
  closed c = true -> after (release r) (c, tr) = (c, tr).
Proof.
  intros H. unfold after.
  destruct r; simpl; [rewrite close_when_closed | rewrite del_when_closed];
    auto.
Qed.

Lemma release_when_open (r : Release) (c : Cursor) (tr : list Event) :
  closed c = false -> after (release r) (c, tr) = closed_by_close c tr.
Proof.
  intros H. destruct r; simpl; [apply close_when_open | apply del_when_open];
    exact H.
Qed.

Lemma lifecycle_when_closed (rs : list Release) (c : Cursor) (tr : list Event) :
  closed c = true -> lifecycle rs (c, tr) = (c, tr).
Proof.
  intros H. induction rs as [|r rs IH]; simpl; [reflexivity|].
  now rewrite release_when_closed.
Qed.

Lemma repeatedly_close_when_closed (n : nat) (c : Cursor) (tr : list Event) :
  closed c = true -> repeatedly n close (c, tr) = (c, tr).
Proof.
  intros H. induction n as [|n IH]; simpl; [reflexivity|].
  unfold after at 1. now rewrite close_when_closed.
Qed.

(** C2. [Cursor.close] is idempotent: on a cursor that is not closed
    the first call marks it closed and hands the bound handle to the
    pool through [push]; a call on a closed cursor does nothing; so
    however often [close] is repeated, the handle goes back to the
    pool exactly once. *)
Theorem close_is_idempotent (c : Cursor) (tr : list Event) (n : nat) :
  closed c = false ->
  let w1 := after close (c, tr) in
  closed (fst w1) = true
  /\ snd w1 = tr ++ [Pushed (_client c)]
  /\ pool (_connection (fst w1))
     = snd (pool_push (_client c) (pool (_connection c)))
  /\ close w1 = (Return tt, w1)
  /\ repeatedly (S n) close (c, tr) = w1
  /\ pushes (snd (repeatedly (S n) close (c, tr))) = S (pushes tr).
Proof.
  intros H. cbn zeta. rewrite (close_when_open c tr H).
  assert (Hrep : repeatedly (S n) close (c, tr) = closed_by_close c tr).
  { simpl. rewrite (close_when_open c tr H).
    now apply repeatedly_close_when_closed. }
  split; [reflexivity|]. split; [reflexivity|]. split; [reflexivity|].
  split; [now apply close_when_closed|]. split; [exact Hrep|].
  rewrite Hrep. unfold closed_by_close. cbn [snd].
  rewrite pushes_app. change (pushes [Pushed (_client c)]) with 1. lia.
Qed.

(** C9. Whatever sequence of explicit [close] calls and implicit
    closes by [__del__] a cursor goes through, its handle is pushed to
    the pool at most once: the first of them on a cursor that is not
    closed marks it closed and pushes (the mark stays even when the
    push raises), and all the others do nothing. *)
Theorem handle_released_at_most_once (rs : list Release) (c : Cursor)
    (tr : list Event) :
  snd (lifecycle rs (c, tr))
  = (if closed c || Nat.eqb (List.length rs) 0 then tr
     else tr ++ [Pushed (_client c)])
  /\ pushes (snd (lifecycle rs (c, tr))) <= S (pushes tr)
  /\ closed (fst (lifecycle rs (c, tr)))
     = closed c || negb (Nat.eqb (List.length rs) 0).
Proof.
  assert (Htr : snd (lifecycle rs (c, tr))
                = (if closed c || Nat.eqb (List.length rs) 0 then tr
                   else tr ++ [Pushed (_client c)])
                /\ closed (fst (lifecycle rs (c, tr)))
                   = closed c || negb (Nat.eqb (List.length rs) 0)).
  { destruct (closed c) eqn:H.
    - rewrite lifecycle_when_closed by exact H. simpl. now rewrite H.
    - destruct rs as [|r rs]; simpl; [now rewrite H|].
      rewrite (release_when_open r c tr H).
      unfold closed_by_close. rewrite lifecycle_when_closed by reflexivity.
      split; reflexivity. }
  destruct Htr as [Htr Hc]. split; [exact Htr|]. split; [|exact Hc].
  rewrite Htr. destruct (closed c || Nat.eqb (List.length rs) 0).
  - lia.
  - rewrite pushes_app. change (pushes [Pushed (_client c)]) with 1. lia.
Qed.

End Lifecycle.

(** ** Execution options *)

Section Options.

Context {env : Environment}.

(** Without the NumPy extras the setter raises after it has written
    the setting. *)
Lemma use_numpy_setter_unavailable (c : Cursor) (tr : list Event) :
  numpy_installed = false ->
  use_numpy_setter true (c, tr)
  = (Raise (RuntimeError "Extras for NumPy must be installed"),
     (set_client (set_client_use_numpy true (_client c)) c, tr)).
Proof. intros H. unfold use_numpy_setter. run. now rewrite H. Qed.

(** The setter never raises when it switches the option off or the
    extras are there. *)
Lemma use_numpy_setter_returns (value : bool) (c : Cursor) (tr : list Event) :
  value = false \/ numpy_installed = true ->
  use_numpy_setter value (c, tr)
  = (Return tt,
     (set_client
        (set_result_classes (if value then Numpy else Plain)
           (set_client_use_numpy value (_client c))) c, tr)).
Proof.
  intros H. unfold use_numpy_setter. run.
  destruct value; [|reflexivity].
  destruct H as [H|H]; [discriminate|]. now rewrite H.
Qed.

(** When the block raises, [set_query_execution_args] stops where the
    block stopped: nothing is restored. *)
Lemma set_query_execution_args_block_raises {A} (new_columnar : option bool)
    (body : M Cursor A) (e : Exn) (c : Cursor) (tr : list Event)
    (w : Cursor * list Event) :
  body (match new_columnar with
        | Some v => set_columnar (Some v) c
        | None => c
        end, tr) = (Raise e, w) ->
  set_query_execution_args new_columnar None body (c, tr) = (Raise e, w).
Proof.
  intros H. unfold set_query_execution_args. run.
  destruct new_columnar; run; now rewrite H.
Qed.

(** When the block returns, the two options are what they were before
    the block, whatever the block did to them. *)
Lemma set_query_execution_args_block_returns {A}
    (new_columnar new_use_numpy : option bool) (body : M Cursor A)
    (c : Cursor) (tr : list Event) :
  numpy_installed = true ->
  (forall w, exists a w', body w = (Return a, w')) ->
  let r := set_query_execution_args new_columnar new_use_numpy body (c, tr) in
  use_numpy (object r) = use_numpy c /\ columnar (object r) = columnar c.
Proof.
  intros Hn Hb. cbn zeta. unfold set_query_execution_args. run.
  assert (Hs : forall v w, use_numpy_setter v w
               = (Return tt,
                  (set_client
                     (set_result_classes (if v then Numpy else Plain)
                        (set_client_use_numpy v (_client (fst w)))) (fst w),
                   snd w))).
  { intros v [c0 tr0]. apply use_numpy_setter_returns. now right. }
  destruct new_use_numpy as [v|]; run; [rewrite Hs|]; simpl;
    (destruct new_columnar as [v'|]; run;
     match goal with
     | |- context [body ?w] =>
         destruct (Hb w) as (a & [c2 tr2] & ->); simpl; rewrite Hs; simpl;
         split; reflexivity
     end).
Qed.

End Options.

(** C6. Asking for NumPy output when the extras are missing raises,
    and the cursor is not what it was: the setting reads true while
    the result classes are still the plain ones.  The setter writes
    the setting first and looks for the extras afterwards. *)
Theorem use_numpy_written_before_check :
  let w := (Demo.fresh_cursor (env := Demo.env_without_numpy) Demo.fresh_pool,
            @nil Event) in
  let r := use_numpy_setter (env := Demo.env_without_numpy) true w in
  use_numpy (fst w) = false
  /\ outcome r = Raise (RuntimeError "Extras for NumPy must be installed")
  /\ use_numpy (object r) = true
  /\ query_result_cls (_client (object r)) = Plain
  /\ object r <> fst w.
Proof.
  cbn zeta. rewrite use_numpy_setter_unavailable by reflexivity.
  repeat split. discriminate.
Qed.

(** C5. A block that raises inside [set_query_execution_args] leaves
    the overridden options in place: here the cursor had
    [use_numpy = False] and [columnar = None], the block ran with both
    set to true and its query failed, and both still read true
    afterwards. *)
Theorem options_not_restored_when_block_raises :
  let w := (Demo.fresh_cursor (env := Demo.demo_env) Demo.fresh_pool,
            @nil Event) in
  let r := set_query_execution_args (env := Demo.demo_env)
             (Some true) (Some true)
             (execute (env := Demo.demo_env) (lit "select 1") None) w in
  use_numpy (fst w) = false /\ columnar (fst w) = None
  /\ outcome r = Raise OperationalError
  /\ use_numpy (object r) = true /\ columnar (object r) = Some true.
Proof. vm_compute. repeat split. Qed.

(** ** [Connection.cursor] *)

Section ConnectionFacts.

Context {env : Environment}.

(** On an open connection [cursor] starts by pulling a handle. *)
Lemma cursor_on_open_connection
    (cursor_factory : option (Client -> Connection -> Cursor))
    (k : Connection) (tr : list Event) :
  is_closed k = false ->
  exists later, trace (cursor cursor_factory (k, tr)) = tr ++ Pulled :: later.
Proof.
  intros H. unfold cursor, _make_client. run. rewrite H. simpl.
  destruct (pool_pull (pool k)) as [[e|client] p]; simpl.
  - now exists [].
  - destruct (_hosts k); simpl; now exists [].
Qed.

(** C7. [Connection.cursor] on a closed connection raises
    [InterfaceError] at once and changes nothing: the connection and
    its pool are as before, no handle is pulled and no cursor is
    made. *)
Theorem cursor_on_closed_connection
    (cursor_factory : option (Client -> Connection -> Cursor))
    (k : Connection) (tr : list Event) :
  is_closed k = true ->
  cursor cursor_factory (k, tr)
  = (Raise (InterfaceError "connection already closed"), (k, tr)).
Proof. intros H. unfold cursor. run. now rewrite H. Qed.

End ConnectionFacts.

(** ** [Cursor.execute] *)

Lemma skipn_app_exact {A} (a b : list A) : skipn (List.length a) (a ++ b) = b.
Proof. induction a; simpl; auto. Qed.

Lemma probe_query_head (table where_ : str) :
  exists rest, probe_query table where_ = 115%N :: rest.
Proof. unfold probe_query. simpl. eauto. Qed.

Section Execute.

Context {env : Environment}.

Lemma prepare_columnar (c : Cursor) (tr : list Event) :
  _prepare (c, tr) = (Return (columnar c), (c, tr)).
Proof. unfold _prepare, super_prepare. run. now destruct (columnar c). Qed.

(** The base [execute] on a closed cursor raises before anything
    happens. *)
Lemma super_execute_closed (operation : str) (parameters : option Params)
    (c : Cursor) (tr : list Event) :
  closed c = true ->
  super_execute operation parameters (c, tr)
  = (Raise (InterfaceError "cursor already closed"), (c, tr)).
Proof.
  intros H. unfold super_execute, _check_cursor_closed. run.
  unfold closed in H. now rewrite H.
Qed.

(** The base [execute] on an open cursor drives the handle once. *)
Lemma super_execute_open (operation : str) (parameters : option Params)
    (c : Cursor) (tr : list Event) :
  closed c = false ->
  let call := mkCall operation parameters (columnar c) in
  super_execute operation parameters (c, tr)
  = match handle tr (_client c) call with
    | Reply r =>
        (Return tt,
         (set_state FINISHED
            (fst (after (_process_response r) (set_state RUNNING c, tr))),
          tr ++ [Sent call]))
    | DriverError =>
        (Raise OperationalError, (set_state RUNNING c, tr ++ [Sent call]))
    end.
Proof.
  intros H. cbn zeta.
  unfold super_execute, _check_cursor_closed, _begin_query, _end_query,
    client_execute, _prepare, super_prepare.
  run. unfold closed in H. rewrite H. simpl.
  assert (E : match columnar c with Some v => Some v | None => None end
              = columnar c) by now destruct (columnar c).
  destruct (columnar c) as [v|] eqn:Hc; simpl;
    (destruct (handle tr (_client c) _) as [r|]; simpl; [|reflexivity];
     destruct r as [n|rows [|h header]]; reflexivity).
Qed.

Lemma super_execute_trace (operation : str) (parameters : option Params)
    (c : Cursor) (tr : list Event) :
  trace (super_execute operation parameters (c, tr))
  = if closed c then tr
    else tr ++ [Sent (mkCall operation parameters (columnar c))].
Proof.
  destruct (closed c) eqn:H.
  - now rewrite super_execute_closed.
  - rewrite super_execute_open by exact H. cbn zeta.
    now destruct (handle tr (_client c) _).
Qed.

(** The probe answered with the single value [n]: the emulation
    returns, having sent the probe and nothing else. *)
Lemma emulate_rowcount_probe (operation : str) (parameters : option Params)
    (query table where_ : str) (c : Cursor) (tr : list Event)
    (n : Value) (header : list (str * str)) :
  update_rowcount_enabled = true ->
  matches operation = true ->
  substitute_params (_client c) operation parameters = inr query ->
  update_pattern_match query = Some table ->
  where_clause query = Some where_ ->
  closed c = false ->
  handle tr (_client c) (mkCall (probe_query table where_) None (columnar c))
  = Reply (RResult [[n]] header) ->
  emulate_rowcount operation parameters (c, tr)
  = (Return tt,
     (primed n c,
      tr ++ [Sent (mkCall (probe_query table where_) None (columnar c))])).
Proof.
  intros He Hm Hs Ht Hw Hc Hh.
  unfold emulate_rowcount. rewrite He, Hm. simpl.
  unfold substitute, group1. unfold bind at 1. unfold bind at 1. simpl.
  rewrite Hs. simpl. unfold bind at 1. simpl. rewrite Ht. simpl.
  rewrite Hw. unfold bind at 1.
  rewrite super_execute_open by exact Hc. cbn zeta. rewrite Hh.
  unfold fetchone, unpack1, _reset_state, primed. run.
  destruct header; reflexivity.
Qed.

(** Whatever the probe is answered, it is what the emulation sends. *)
Lemma emulate_rowcount_sends_probe (operation : str)
    (parameters : option Params) (query table where_ : str) (c : Cursor)
    (tr : list Event) :
  update_rowcount_enabled = true ->
  matches operation = true ->
  substitute_params (_client c) operation parameters = inr query ->
  update_pattern_match query = Some table ->
  where_clause query = Some where_ ->
  closed c = false ->
  trace (emulate_rowcount operation parameters (c, tr))
  = tr ++ [Sent (mkCall (probe_query table where_) None (columnar c))].
Proof.
  intros He Hm Hs Ht Hw Hc.
  unfold emulate_rowcount. rewrite He, Hm. simpl.
  unfold substitute, group1. unfold bind, get, ret, raise. simpl.
  rewrite Hs. simpl. rewrite Ht. simpl. rewrite Hw.
  rewrite super_execute_open by exact Hc. cbn zeta.
  destruct (handle tr (_client c) _) as [r|]; [|reflexivity].
  unfold fetchone, unpack1, _reset_state. run.
  destruct r as [n|rows [|h header]]; simpl;
    try (destruct rows as [|[|v [|v' row]] rows]; simpl); reflexivity.
Qed.

(** [execute] is the emulation followed, when it returns, by the base
    [execute] of the statement. *)
Lemma execute_unfold (operation : str) (parameters : option Params)
    (w : Cursor * list Event) :
  execute operation parameters w
  = match emulate_rowcount operation parameters w with
    | (Return _, w') => super_execute operation parameters w'
    | (Raise e, w') => (Raise e, w')
    end.
Proof. reflexivity. Qed.

Lemma execute_trace_extends (operation : str) (parameters : option Params)
    (w : Cursor * list Event) :
  exists later,
    trace (execute operation parameters w)
    = trace (emulate_rowcount operation parameters w) ++ later.
Proof.
  rewrite execute_unfold.
  destruct (emulate_rowcount operation parameters w) as [[[]|e] [c' tr']].
  - rewrite super_execute_trace. unfold trace. cbn [fst snd].
    destruct (closed c'); eexists; [symmetry; apply app_nil_r|reflexivity].
  - exists []. symmetry. apply app_nil_r.
Qed.

End Execute.

Section Emulation.

Context {env : Environment}.

(** C1, amended.  With the emulation enabled, on an open cursor, a
    statement of the ALTER TABLE ... UPDATE shape whose substituted
    text still has the shape and contains a WHERE token is preceded
    by a probe on the same cursor: the first call the handle receives
    is the text select count, star in parentheses, from, the table
    name, where, and the predicate cut out of the statement.  When
    the probe is answered with a single value, that value becomes the
    cursor's row count and the statement itself is executed next, so
    the handle sees the probe and then the statement, and a statement
    answered without a column header leaves the row count at the
    probe's value.  When the probe is refused, its error is the
    outcome of [execute] and the statement is not sent. *)
Theorem execute_probes_then_runs_statement (operation : str)
    (parameters : option Params) (query table : str) (c : Cursor)
    (tr : list Event) :
  update_rowcount_enabled = true ->
  matches operation = true ->
  substitute_params (_client c) operation parameters = inr query ->
  update_pattern_match query = Some table ->
  occurs (lit " WHERE ") (upper query) ->
  closed c = false ->
  exists where_,
    where_clause query = Some where_ /\
    let probe :=
      mkCall (lit "select count(*) from " ++ table ++ lit " where " ++ where_)
             None (columnar c) in
    let original := mkCall operation parameters (columnar c) in
    (exists later,
       trace (execute operation parameters (c, tr)) = tr ++ Sent probe :: later)
    /\ (handle tr (_client c) probe = DriverError ->
        execute operation parameters (c, tr)
        = (Raise OperationalError, (set_state RUNNING c, tr ++ [Sent probe])))
    /\
    forall (n : Value) (header : list (str * str)),
      handle tr (_client c) probe = Reply (RResult [[n]] header) ->
      let r := execute operation parameters (c, tr) in
      r = super_execute operation parameters (primed n c, tr ++ [Sent probe])
      /\ _rowcount (primed n c) = n
      /\ trace r = tr ++ [Sent probe; Sent original]
      /\ emulates_with_probe operation parameters (c, tr)
      /\ forall rows,
           handle (tr ++ [Sent probe]) (_client c) original
           = Reply (RResult rows []) ->
           outcome r = Return tt /\ _rowcount (object r) = n.
Proof.
  intros He Hm Hs Ht Hocc Hc.
  destruct (where_clause_found query (update_pattern_match_matches _ _ Ht) Hocc)
    as [where_ Hw].
  exists where_. split; [exact Hw|]. cbn zeta.
  change (lit "select count(*) from " ++ table ++ lit " where " ++ where_)
    with (probe_query table where_).
  split.
  { destruct (execute_trace_extends operation parameters (c, tr))
      as [later Hl].
    exists later. rewrite Hl.
    rewrite (emulate_rowcount_sends_probe operation parameters query table
               where_ c tr He Hm Hs Ht Hw Hc).
    now rewrite <- app_assoc. }
  split.
  { intros Hh. rewrite execute_unfold. unfold emulate_rowcount.
    rewrite He, Hm. cbn [andb].
    unfold substitute, group1. unfold bind, get, ret, raise. cbn [fst snd].
    rewrite Hs, Ht, Hw.
    rewrite super_execute_open by exact Hc. cbn zeta. now rewrite Hh. }
  intros n header Hh.
  assert (Hex : execute operation parameters (c, tr)
                = super_execute operation parameters
                    (primed n c,
                     tr ++ [Sent (mkCall (probe_query table where_) None
                                         (columnar c))])).
  { unfold execute. unfold bind at 1.
    now rewrite (emulate_rowcount_probe operation parameters query table
                   where_ c tr n header He Hm Hs Ht Hw Hc Hh). }
  assert (Htr : trace (execute operation parameters (c, tr))
                = tr ++ [Sent (mkCall (probe_query table where_) None
                                      (columnar c));
                         Sent (mkCall operation parameters (columnar c))]).
  { rewrite Hex, super_execute_trace. simpl. now rewrite <- app_assoc. }
  split; [exact Hex|]. split; [reflexivity|]. split; [exact Htr|]. split.
  - exists table, where_, n, header. cbn zeta. cbn [fst snd].
    change (lit "select count(*) from " ++ table ++ lit " where " ++ where_)
      with (probe_query table where_).
    split; [exact Hh|]. split; [exact Hex|].
    unfold calls_during, after. unfold trace in Htr. rewrite Htr.
    cbn [snd]. now rewrite skipn_app_exact.
  - intros rows Hr. rewrite Hex.
    rewrite super_execute_open by reflexivity. cbn zeta.
    change (_client (primed n c)) with (_client c).
    change (columnar (primed n c)) with (columnar c).
    rewrite Hr. split; reflexivity.
Qed.

(** C1, as stated, fails when the probe is refused.  The statement of
    the scenario has the shape and a WHERE clause and the emulation
    is enabled, yet on a server that lets the user alter but not
    select the probe is the only call: no row count comes from it and
    the statement is not executed afterwards. *)
Lemma statement_not_emulated_when_probe_refused :
  let w := (Demo.fresh_cursor (env := Demo.env_without_select) Demo.fresh_pool,
            @nil Event) in
  update_rowcount_enabled (env := Demo.env_without_select) = true
  /\ matches Demo.update_t_where = true
  /\ occurs (lit " WHERE ")
       (upper (env := Demo.env_without_select) Demo.update_t_where)
  /\ calls_during (execute (env := Demo.env_without_select)
                     Demo.update_t_where (Some [])) w
     = [mkCall (lit "select count(*) from " ++ quoted (lit "t")
                ++ lit " where id > 5") None None]
  /\ _rowcount (fst (after (execute (env := Demo.env_without_select)
                              Demo.update_t_where (Some [])) w))
     = VInt (-1)
  /\ ~ emulates_with_probe (env := Demo.env_without_select)
         Demo.update_t_where (Some []) w.
Proof.
  cbn zeta. split; [reflexivity|]. split; [vm_compute; reflexivity|].
  split.
  { exists (upper (env := Demo.env_without_select) Demo.update_t),
      (lit "ID > 5").
    vm_compute. reflexivity. }
  split; [vm_compute; reflexivity|]. split; [vm_compute; reflexivity|].
  intros (table & predicate & n & header & _ & _ & E).
  assert (L : List.length
                (calls_during (execute (env := Demo.env_without_select)
                                 Demo.update_t_where (Some []))
                   (Demo.fresh_cursor (env := Demo.env_without_select)
                      Demo.fresh_pool, [])) = 1)
    by (vm_compute; reflexivity).
  rewrite E in L. discriminate.
Qed.


End Emulation.

Section Delegation.

Context {env : Environment}.

(** What the emulation can have done when it ends, by returning or by
    raising: nothing at all, or sent one probe. *)
Lemma emulate_rowcount_cases (operation : str) (parameters : option Params)
    (c : Cursor) (tr : list Event) :
  closed c = false ->
  let r := emulate_rowcount operation parameters (c, tr) in
  snd r = (c, tr)
  \/ (matches operation = true
      /\ columnar (object r) = columnar c
      /\ match outcome r with
         | Return _ => closed (object r) = false
         | Raise _ => True
         end
      /\ exists table where_,
           trace r
           = tr ++ [Sent (mkCall (probe_query table where_) None (columnar c))]).
Proof.
  intros Hc. cbn zeta. unfold emulate_rowcount.
  destruct update_rowcount_enabled; simpl; [|now left].
  destruct (matches operation) eqn:Hm; [|now left].
  unfold substitute, group1. unfold bind, get, ret, raise. simpl.
  destruct (substitute_params (_client c) operation parameters)
    as [e|query]; simpl; [now left|].
  destruct (update_pattern_match query) as [table|]; simpl; [|now left].
  destruct (where_clause query) as [where_|]; [|now left].
  right. split; [reflexivity|].
  rewrite super_execute_open by exact Hc. cbn zeta.
  destruct (handle tr (_client c) _) as [r|].
  - unfold fetchone, unpack1, _reset_state. run.
    destruct r as [n|rows [|h header]]; simpl;
      try (destruct rows as [|[|v [|v' row]] rows]; simpl);
      (split; [reflexivity|]); (split; [exact I || reflexivity|]);
      now exists table, where_.
  - simpl. split; [reflexivity|]. split; [exact I|]. now exists table, where_.
Qed.

Lemma probe_is_not_original (operation : str) (parameters : option Params)
    (table where_ : str) (k k' : option bool) :
  matches operation = true ->
  mkCall (probe_query table where_) None k <> mkCall operation parameters k'.
Proof.
  intros Hm E. destruct (matches_head _ Hm) as [rest ->].
  destruct (probe_query_head table where_) as [rest' Hp].
  rewrite Hp in E. discriminate.
Qed.

(** C10, amended.  On an open cursor, when the emulation that
    precedes the statement raises nothing, [execute] hands the
    statement to the base [execute] with the operation text and the
    parameters it was given, and the handle receives it exactly once,
    as the last call, after at most one probe; this holds with the
    emulation enabled or not, with or without the shape, with or
    without a WHERE clause.  When the emulation raises, the error is
    the outcome of [execute] and the statement is not sent. *)
Theorem execute_sends_statement_last (operation : str)
    (parameters : option Params) (c : Cursor) (tr : list Event) :
  closed c = false ->
  let original := mkCall operation parameters (columnar c) in
  match emulate_rowcount operation parameters (c, tr) with
  | (Return _, w') =>
      execute operation parameters (c, tr)
      = super_execute operation parameters w'
      /\ executes_original_once operation parameters (c, tr)
      /\ exists before,
           calls_during (execute operation parameters) (c, tr)
           = before ++ [original]
           /\ List.length before <= 1
  | (Raise e, w') =>
      execute operation parameters (c, tr) = (Raise e, w')
      /\ ~ In original (calls_during (execute operation parameters) (c, tr))
  end.
Proof.
  intros Hc. cbn zeta.
  pose proof (emulate_rowcount_cases operation parameters c tr Hc) as Hcases.
  cbn zeta in Hcases.
  unfold executes_original_once, calls_during, after. cbn [fst snd].
  rewrite execute_unfold.
  destruct (emulate_rowcount operation parameters (c, tr))
    as [[[]|e] [c' tr']] eqn:Hem; cbn [fst snd] in *.
  - (* the emulation returned *)
    pose proof (super_execute_trace operation parameters c' tr') as Htr.
    unfold trace in Htr.
    destruct Hcases as [E|(Hm & Hcol & Hopen & table & where_ & Ht)].
    + injection E as -> ->. rewrite Htr, Hc, skipn_app_exact. simpl.
      split; [reflexivity|]. split.
      * exists [], []. simpl. intuition.
      * exists []. simpl. auto.
    + unfold outcome, object, trace in *. cbn [fst snd] in *.
      rewrite Htr, Hopen, Hcol, Ht, <- app_assoc, skipn_app_exact. simpl.
      split; [reflexivity|]. split.
      * exists [mkCall (probe_query table where_) None (columnar c)], [].
        split; [reflexivity|]. split; [|simpl; intuition].
        intros [E|[]].
        now apply probe_is_not_original in E.
      * exists [mkCall (probe_query table where_) None (columnar c)].
        simpl. auto.
  - (* the emulation raised *)
    split; [reflexivity|].
    destruct Hcases as [E|(Hm & Hcol & _ & table & where_ & Ht)].
    + injection E as -> ->.
      replace tr with (tr ++ []) at 2 by apply app_nil_r.
      rewrite skipn_app_exact. simpl. auto.
    + unfold trace in Ht. cbn [fst snd] in Ht.
      rewrite Ht, skipn_app_exact. simpl.
      intros [E|[]]. now apply probe_is_not_original in E.
Qed.

End Delegation.

(** C10, as stated, fails when the probe fails.  On a server that
    lets the user alter but not select, the statement of the scenario
    is not sent at all with the emulation enabled: the probe raises
    [OperationalError] and [execute] ends there.  With the emulation
    disabled the same server receives the statement. *)
Lemma original_not_executed_when_probe_fails :
  let w := (Demo.fresh_cursor (env := Demo.env_without_select) Demo.fresh_pool,
            @nil Event) in
  outcome (execute (env := Demo.env_without_select) Demo.update_t_where None w)
  = Raise OperationalError
  /\ calls_during (execute (env := Demo.env_without_select)
                     Demo.update_t_where None) w
     = [mkCall Demo.count_probe None None]
  /\ calls_during (execute (env := Demo.env_emulation_off)
                     Demo.update_t_where None)
       (Demo.fresh_cursor (env := Demo.env_emulation_off) Demo.fresh_pool, [])
     = [mkCall Demo.update_t_where None None]
  /\ ~ executes_original_once (env := Demo.env_without_select)
         Demo.update_t_where None w.
Proof.
  cbn zeta. split; [reflexivity|]. split; [reflexivity|].
  split; [vm_compute; reflexivity|].
  intros (before & later & E & _).
  change (calls_during (execute (env := Demo.env_without_select)
                          Demo.update_t_where None)
            (Demo.fresh_cursor (env := Demo.env_without_select)
               Demo.fresh_pool, []))
    with [mkCall Demo.count_probe None None] in E.
  destruct before as [|x [|y before]]; simpl in E; discriminate.
Qed.

(** C3. With a sharp s in the SET clause, the statement of the
    scenario (ending in WHERE id > 5 SETTINGS max_threads = 2) has the
    shape, yet the predicate cut out of it is not id > 5: upper-casing
    turns the sharp s into two letters, the indices found in the
    upper-cased text are one too far for the statement itself, and
    the predicate loses its first letter and gains the space before
    SETTINGS.  The probe built from it is refused by the server, and
    the statement is never sent. *)
Theorem predicate_shifted_by_sharp_s :
  let w := (Demo.fresh_cursor (env := Demo.demo_env) Demo.fresh_pool,
            @nil Event) in
  update_pattern_match Demo.update_sharp_s = Some (quoted (lit "t"))
  /\ (exists before,
        Demo.update_sharp_s
        = before ++ lit " WHERE id > 5 SETTINGS max_threads = 2")
  /\ upper (env := Demo.demo_env) [Demo.sharp_s] = lit "SS"
  /\ where_clause (env := Demo.demo_env) Demo.update_sharp_s
     = Some (lit "d > 5 ")
  /\ where_clause (env := Demo.demo_env) Demo.update_sharp_s
     <> Some (lit "id > 5")
  /\ calls_during (execute (env := Demo.demo_env) Demo.update_sharp_s None) w
     = [mkCall (probe_query (quoted (lit "t")) (lit "d > 5 ")) None None]
  /\ outcome (execute (env := Demo.demo_env) Demo.update_sharp_s None w)
     = Raise OperationalError.
Proof.
  cbn zeta. split; [vm_compute; reflexivity|]. split.
  - exists (lit "ALTER TABLE " ++ quoted (lit "t") ++ lit " UPDATE x = '"
            ++ [Demo.sharp_s] ++ lit "'").
    vm_compute; reflexivity.
  - split; [vm_compute; reflexivity|]. split; [vm_compute; reflexivity|].
    split; [|split; vm_compute; reflexivity].
    intros E. vm_compute in E. discriminate.
Qed.

(** ** [send_query] *)

Section WireFacts.

Context {proto : Protocol}.


(** [send_query] is the packet written on the connected object. *)
Lemma send_query_connects (query : str) (query_id : option str)
    (params : option Params) (c : DriverConnection) (tr : list Event) :
  send_query query query_id params (c, tr)
  = match connected_object c with
    | inl e => (Raise e, (c, tr))
    | inr c0 => write_query_packet query query_id params (c0, tr)
    end.
Proof.
  unfold send_query, connected_object, do_connect, bind, get, ret.
  cbn [fst snd].
  destruct (connected c); cbn [negb]; [reflexivity|].
  cbn [fst snd]. destruct (connect c); reflexivity.
Qed.


End WireFacts.

(** ** The scenarios *)

Section Scenarios.

#[local] Existing Instance Demo.demo_env.

(** Closing the fresh cursor twice pushes its handle once. *)
Lemma close_is_idempotent_witness :
  closed Demo.scenario_cursor = false
  /\ pushes (snd (repeatedly 2 close (Demo.scenario_cursor, []))) = 1
  /\ Demo.idle (pool (_connection (fst (repeatedly 2 close (Demo.scenario_cursor, [])))))
     = [Demo.new_handle 0].
Proof.
  pose proof (close_is_idempotent Demo.scenario_cursor [] 1 eq_refl) as W. cbn zeta in W.
  destruct W as (_ & _ & _ & _ & Hrep & Hpush).
  split; [reflexivity|]. split; [exact Hpush|].
  rewrite Hrep. reflexivity.
Defined.

(** The row-count emulation scenario: the probe returns 7, the row
    count is 7, and the mutation is executed after the probe. *)
Lemma execute_probes_then_runs_statement_witness :
  (update_rowcount_enabled = true
   /\ matches Demo.update_t_where = true
   /\ substitute_params (_client Demo.scenario_cursor) Demo.update_t_where
        (Some []) = inr Demo.update_t_where
   /\ update_pattern_match Demo.update_t_where = Some (quoted (lit "t"))
   /\ occurs (lit " WHERE ") (upper Demo.update_t_where)
   /\ closed Demo.scenario_cursor = false)
  /\ trace (execute Demo.update_t_where (Some []) (Demo.scenario_cursor, []))
     = [Sent (mkCall (lit "select count(*) from " ++ quoted (lit "t")
                      ++ lit " where id > 5") None None);
        Sent (mkCall Demo.update_t_where (Some []) None)]
  /\ emulates_with_probe Demo.update_t_where (Some [])
       (Demo.scenario_cursor, [])
  /\ outcome (execute Demo.update_t_where (Some [])
                (Demo.scenario_cursor, [])) = Return tt
  /\ _rowcount (object (execute Demo.update_t_where (Some [])
                          (Demo.scenario_cursor, []))) = VInt 7.
Proof.
  assert (Hocc : occurs (lit " WHERE ") (upper Demo.update_t_where)).
  { exists (upper Demo.update_t), (lit "ID > 5"). vm_compute. reflexivity. }
  split; [repeat split; (exact Hocc || (vm_compute; reflexivity))|].
  destruct (execute_probes_then_runs_statement Demo.update_t_where (Some [])
              Demo.update_t_where (quoted (lit "t")) Demo.scenario_cursor []
              eq_refl eq_refl eq_refl eq_refl Hocc eq_refl)
    as (where_ & Hw & H).
  assert (E : where_ = lit "id > 5").
  { assert (E' : where_clause Demo.update_t_where = Some (lit "id > 5"))
      by (vm_compute; reflexivity).
    rewrite E' in Hw. now injection Hw. }
  subst where_. cbn zeta in H. destruct H as (_ & _ & H).
  destruct (H (VInt 7) [(lit "count()", lit "UInt64")] eq_refl)
    as (_ & _ & Htr & Hem & Hrows).
  destruct (Hrows [] eq_refl) as (Hout & Hcount).
  split; [exact Htr|]. split; [exact Hem|].
  split; [exact Hout|exact Hcount].
Defined.


(** A connection that was closed hands out no cursor and pulls no
    handle. *)
Lemma cursor_on_closed_connection_witness :
  let k := fst (after Connection_close
                  (Demo.open_connection Demo.fresh_pool, [])) in
  is_closed k = true
  /\ cursor None (k, [CleanedUp])
     = (Raise (InterfaceError "connection already closed"), (k, [CleanedUp])).
Proof.
  cbn zeta. split; [reflexivity|].
  exact (cursor_on_closed_connection None
           (fst (after Connection_close
                   (Demo.open_connection Demo.fresh_pool, [])))
           [CleanedUp] eq_refl).
Defined.

(** In the scenario the statement is sent exactly once, after the
    probe. *)
Lemma execute_sends_statement_last_witness :
  closed Demo.scenario_cursor = false
  /\ executes_original_once Demo.update_t_where None (Demo.scenario_cursor, [])
  /\ execute Demo.update_t_where None (Demo.scenario_cursor, [])
     = super_execute Demo.update_t_where None
         (primed (VInt 7) Demo.scenario_cursor, [Sent (mkCall Demo.count_probe None None)]).
Proof.
  split; [reflexivity|].
  pose proof (execute_sends_statement_last Demo.update_t_where None Demo.scenario_cursor []
                eq_refl) as W.
  cbn zeta in W.
  assert (E : emulate_rowcount Demo.update_t_where None (Demo.scenario_cursor, [])
              = (Return tt,
                 (primed (VInt 7) Demo.scenario_cursor,
                  [Sent (mkCall Demo.count_probe None None)])))
    by (vm_compute; reflexivity).
  rewrite E in W. destruct W as (Hex & Honce & _).
  split; [exact Honce|exact Hex].
Defined.

End Scenarios.

(** * Further properties *)

(** ** The statement shape *)

Section Shape.

Lemma name_loop_sound (n : nat) :
  forall (s acc : str) (nonempty : bool) (r : str),
    List.length s <= n ->
    name_loop s acc nonempty = Some r ->
    exists body rest,
      r = acc ++ body
      /\ s = body ++ dquote :: lit " UPDATE " ++ rest
      /\ (nonempty = true \/ body <> []).
Proof.
  induction n as [|n IH]; intros s acc nonempty r Hlen H.
  - destruct s; [discriminate|simpl in Hlen; lia].
  - destruct s as [|c rest]; [discriminate|].
    simpl in Hlen. cbn [name_loop] in H.
    destruct (if negb (c =? dquote)%N
              then name_loop rest (acc ++ [c]) true else None) as [r1|] eqn:H1.
    + injection H as <-.
      destruct (negb (c =? dquote)%N); [|discriminate].
      destruct (IH rest (acc ++ [c]) true r1 ltac:(lia) H1)
        as (body & rest0 & -> & -> & _).
      exists (c :: body), rest0. rewrite <- app_assoc.
      repeat split; try reflexivity. right. discriminate.
    + destruct (if (c =? backslash)%N then
                  match rest with
                  | d :: rest' =>
                      if negb (d =? newline)%N
                      then name_loop rest' (acc ++ [c; d]) true else None
                  | [] => None
                  end
                else None) as [r2|] eqn:H2.
      * injection H as <-.
        destruct (c =? backslash)%N; [|discriminate].
        destruct rest as [|d rest']; [discriminate|].
        destruct (negb (d =? newline)%N); [|discriminate].
        simpl in Hlen.
        destruct (IH rest' (acc ++ [c; d]) true r2 ltac:(lia) H2)
          as (body & rest0 & -> & -> & _).
        exists (c :: d :: body), rest0. rewrite <- app_assoc.
        repeat split; try reflexivity. right. discriminate.
      * destruct nonempty; [|discriminate]. cbn [andb] in H.
        destruct (c =? dquote)%N eqn:Hc; [|discriminate]. cbn [andb] in H.
        destruct (startswith (lit " UPDATE ") rest) eqn:Hs; [|discriminate].
        injection H as <-. apply N.eqb_eq in Hc. subst c.
        destruct (startswith_split _ _ Hs) as [rest0 ->].
        exists [], rest0. rewrite app_nil_r.
        repeat split; try reflexivity. now left.
Qed.

Lemma name_loop_complete (name rest acc : str) (nonempty : bool) :
  Forall (fun c => c <> dquote) name ->
  nonempty = true \/ name <> [] ->
  name_loop (name ++ dquote :: lit " UPDATE " ++ rest) acc nonempty
  = Some (acc ++ name).
Proof.
  intros Hq. revert acc nonempty.
  induction Hq as [|c name Hc _ IH]; intros acc nonempty Hne.
  - destruct Hne as [->|Hne]; [|congruence].
    cbn [app name_loop]. rewrite N.eqb_refl. cbn [negb andb].
    change (dquote =? backslash)%N with false. cbv iota.
    rewrite startswith_app. now rewrite app_nil_r.
  - cbn [app name_loop].
    apply N.eqb_neq in Hc. rewrite Hc. cbn [negb].
    rewrite (IH (acc ++ [c]) true) by now left.
    now rewrite <- app_assoc.
Qed.

(** A statement that [update_pattern] matches is the words ALTER
    TABLE, a space, the group (a non-empty name between double
    quotes), and UPDATE between two spaces, followed by anything. *)
Theorem update_pattern_match_shape (s table : str) :
  update_pattern_match s = Some table ->
  exists name rest,
    name <> []
    /\ table = quoted name
    /\ s = lit "ALTER TABLE " ++ table ++ lit " UPDATE " ++ rest.
Proof.
  unfold update_pattern_match. intros H.
  destruct (startswith (lit "ALTER TABLE ") s) eqn:Hs; [|discriminate].
  destruct (startswith_split _ _ Hs) as [r ->].
  rewrite skipn_app in H.
  change (skipn 12 (lit "ALTER TABLE ")) with (@nil char) in H.
  change (12 - List.length (lit "ALTER TABLE ")) with 0 in H.
  cbn [skipn app] in H.
  destruct r as [|c r]; [discriminate|].
  destruct (c =? dquote)%N eqn:Hc; [|discriminate].
  apply N.eqb_eq in Hc. subst c.
  destruct (name_loop r [] false) as [body|] eqn:Hl; [|discriminate].
  injection H as <-.
  destruct (name_loop_sound (List.length r) r [] false body (le_n _) Hl)
    as (name & rest & E & -> & Hne).
  cbn [app] in E. subst body.
  exists name, rest. split.
  - destruct Hne as [Hne|Hne]; [discriminate|exact Hne].
  - split; [reflexivity|].
    unfold quoted. cbn [app]. rewrite <- app_assoc. reflexivity.
Qed.

(** Every statement that starts with ALTER TABLE, a non-empty name
    without double quotes between double quotes, and UPDATE between
    spaces is matched, and the group is the quoted name, whatever
    follows. *)
Theorem update_pattern_match_plain_name (name rest : str) :
  name <> [] ->
  Forall (fun c => c <> dquote) name ->
  update_pattern_match
    (lit "ALTER TABLE " ++ quoted name ++ lit " UPDATE " ++ rest)
  = Some (quoted name).
Proof.
  intros Hne Hq. unfold update_pattern_match.
  rewrite startswith_app. rewrite skipn_app.
  change (skipn 12 (lit "ALTER TABLE ")) with (@nil char).
  change (12 - List.length (lit "ALTER TABLE ")) with 0.
  cbn [skipn app]. unfold quoted at 1. cbn [app].
  rewrite N.eqb_refl. rewrite <- app_assoc. cbn [app].
  rewrite (name_loop_complete name rest [] false Hq) by now right.
  reflexivity.
Qed.

End Shape.

(** ** The predicate of a statement that keeps its length *)

Section Predicate.

Context {env : Environment}.

Local Open Scope Z_scope.

(** Nothing occurs above the index [rfind] answers. *)
Lemma rfind_at_max (sub : str) :
  forall (s : str) (k start : Z) (m : nat),
    0 <= k ->
    (m <= List.length s)%nat ->
    start <= k + Z.of_nat m ->
    rfind_at sub s k start < k + Z.of_nat m ->
    startswith sub (skipn m s) = false.
Proof.
  induction s as [|c s IH]; intros k start m Hk Hm Hs Hr.
  - simpl in Hm. assert (m = 0%nat) by lia. subst m. simpl in *.
    destruct (startswith sub []); [|reflexivity].
    replace (start <=? k) with true in Hr
      by (symmetry; apply Z.leb_le; lia).
    simpl in Hr. lia.
  - cbn [rfind_at] in Hr.
    pose proof (rfind_at_sound sub s (k + 1) start ltac:(lia)) as Hsound.
    cbn zeta in Hsound.
    destruct m as [|m].
    + cbn [skipn].
      destruct (0 <=? rfind_at sub s (k + 1) start) eqn:H0.
      * apply Z.leb_le in H0. lia.
      * destruct (startswith sub (c :: s)); [|reflexivity].
        replace (start <=? k) with true in Hr
          by (symmetry; apply Z.leb_le; lia).
        simpl in Hr. lia.
    + cbn [skipn]. simpl in Hm.
      apply (IH (k + 1) start m); try lia.
      destruct (0 <=? rfind_at sub s (k + 1) start) eqn:H0; [lia|].
      apply Z.leb_gt in H0. lia.
Qed.

Lemma rfind_at_none_or_found (sub s : str) (k start : Z) :
  0 <= k -> rfind_at sub s k start = -1 \/ 0 <= rfind_at sub s k start.
Proof.
  intros Hk. destruct (rfind_at_sound sub s k start Hk) as [H|H]; lia.
Qed.

(** When nothing occurs from index [a] on, nothing occurs in the text
    that starts at [a]. *)
Lemma no_occurrence_from (sub s : str) (a : nat) :
  sub <> [] ->
  (forall m, (a <= m <= List.length s)%nat ->
             startswith sub (skipn m s) = false) ->
  ~ occurs sub (skipn a s).
Proof.
  intros Hne Hnone (p & t & E).
  assert (Hlen : (List.length (skipn a s)
                  = List.length p + List.length sub + List.length t)%nat)
    by (rewrite E, !length_app; lia).
  rewrite length_skipn in Hlen.
  assert (Hsub : (0 < List.length sub)%nat)
    by (destruct sub; [congruence|simpl; lia]).
  specialize (Hnone (a + List.length p)%nat ltac:(lia)).
  rewrite Nat.add_comm, <- skipn_skipn, E in Hnone.
  rewrite skipn_app, skipn_all, Nat.sub_diag in Hnone.
  cbn [skipn app] in Hnone.
  now rewrite startswith_app in Hnone.
Qed.

Lemma keeps_length_skipn (n : nat) (s : str) :
  keeps_length s -> upper (skipn n s) = skipn n (upper s).
Proof.
  unfold upper, upper_with. intros H. revert n.
  induction H as [|c s Hc _ IH]; intros [|n]; try reflexivity.
  cbn [skipn flat_map].
  destruct (upper_char upper_above_latin1 c) as [|u [|u' l]];
    try discriminate.
  cbn [app skipn]. apply IH.
Qed.

Lemma keeps_length_firstn (n : nat) (s : str) :
  keeps_length s -> upper (firstn n s) = firstn n (upper s).
Proof.
  unfold upper, upper_with. intros H. revert n.
  induction H as [|c s Hc _ IH]; intros [|n]; try reflexivity.
  cbn [firstn flat_map].
  destruct (upper_char upper_above_latin1 c) as [|u [|u' l]];
    try discriminate.
  cbn [app firstn]. now rewrite IH.
Qed.

Lemma keeps_length_part (n : nat) (s : str) :
  keeps_length s -> keeps_length (firstn n s) /\ keeps_length (skipn n s).
Proof.
  unfold keeps_length. intros H. revert n.
  induction H as [|c s Hc Hs IH]; intros [|n]; cbn [firstn skipn];
    try (split; constructor; assumption).
  destruct (IH n) as [Hf Hsk]. split; [now constructor|exact Hsk].
Qed.

Lemma startswith_firstn (p s : str) :
  startswith p s = true -> firstn (List.length p) s = p.
Proof.
  intros H. destruct (startswith_split _ _ H) as [r ->].
  rewrite firstn_app, firstn_all, Nat.sub_diag. cbn [firstn].
  apply app_nil_r.
Qed.

Lemma tl_skipn (n : nat) (s : str) : tl (skipn n s) = skipn (S n) s.
Proof.
  revert s; induction n as [|n IH]; intros [|c s]; try reflexivity.
  apply IH.
Qed.

Lemma skipn_between (a b : nat) (s : str) :
  (a <= b)%nat -> skipn a s = skipn a (firstn b s) ++ skipn b s.
Proof.
  intros H. rewrite <- (firstn_skipn b s) at 1.
  rewrite skipn_app.
  destruct (Nat.le_gt_cases b (List.length s)) as [Hb|Hb].
  - rewrite length_firstn, Nat.min_l by exact Hb.
    replace (a - b)%nat with 0%nat by lia. reflexivity.
  - assert (E : skipn b s = []) by (apply skipn_all2; lia).
    rewrite E, skipn_nil. reflexivity.
Qed.

(** On a statement that keeps its length when upper-cased, the
    predicate that lines 159 to 166 cut out starts right after the
    last WHERE token (in any case) and runs up to the last SETTINGS
    token after it, or to the end when there is none. *)
Theorem where_clause_between_keywords (query where_ : str) :
  keeps_length query ->
  where_clause query = Some where_ ->
  exists before keyword rest,
    query = before ++ keyword ++ rest
    /\ before <> []
    /\ upper keyword = lit " WHERE "
    /\ ~ occurs (lit " WHERE ") (tl (upper (keyword ++ rest)))
    /\ ((where_ = rest /\ ~ occurs (lit " SETTINGS ") (upper rest))
        \/ exists settings_keyword tail,
             rest = where_ ++ settings_keyword ++ tail
             /\ upper settings_keyword = lit " SETTINGS "
             /\ ~ occurs (lit " SETTINGS ")
                  (tl (upper (settings_keyword ++ tail)))).
Proof.
  intros Hk H. unfold where_clause in H. cbn zeta in H.
  pose proof (upper_keeps_length query Hk) as Hlen.
  set (U := upper query) in *.
  unfold rfind, rfind_from in H.
  pose proof (rfind_at_sound (lit " WHERE ") U 0 0 ltac:(lia)) as Hi.
  cbn zeta in Hi.
  pose proof (fun m => rfind_at_max (lit " WHERE ") U 0 0 m ltac:(lia)) as Himax.
  set (i := rfind_at (lit " WHERE ") U 0 0) in *.
  destruct (i >? 0) eqn:Hpos; [|discriminate].
  apply Z.gtb_lt in Hpos.
  destruct Hi as [Hi|(_ & _ & Hile & Hiw)]; [lia|].
  rewrite Z.sub_0_r in Hiw.
  pose proof (rfind_at_sound (lit " SETTINGS ") U 0 (i + 7) ltac:(lia)) as Hj.
  cbn zeta in Hj.
  pose proof (fun m => rfind_at_max (lit " SETTINGS ") U 0 (i + 7) m
                         ltac:(lia)) as Hjmax.
  set (j := rfind_at (lit " SETTINGS ") U 0 (i + 7)) in *.
  set (ni := Z.to_nat i) in *.
  assert (Hkw : firstn 7 (skipn ni U) = lit " WHERE ")
    by exact (startswith_firstn _ _ Hiw).
  assert (Hi7 : (ni + 7 <= List.length query)%nat).
  { assert (L : List.length (firstn 7 (skipn ni U)) = 7%nat)
      by now rewrite Hkw.
    rewrite length_firstn, length_skipn, Hlen in L. lia. }
  assert (Hsplit : query
                   = firstn ni query ++ firstn 7 (skipn ni query)
                     ++ skipn (ni + 7) query).
  { rewrite <- (firstn_skipn ni query) at 1. f_equal.
    rewrite <- (firstn_skipn 7 (skipn ni query)) at 1. f_equal.
    rewrite skipn_skipn. f_equal. lia. }
  assert (Hupkw : upper (firstn 7 (skipn ni query)) = lit " WHERE ").
  { rewrite keeps_length_firstn by (apply keeps_length_part; exact Hk).
    rewrite keeps_length_skipn by exact Hk. exact Hkw. }
  assert (Hlast : ~ occurs (lit " WHERE ")
                    (tl (upper (firstn 7 (skipn ni query)
                                ++ skipn (ni + 7) query)))).
  { replace (firstn 7 (skipn ni query) ++ skipn (ni + 7) query)
      with (skipn ni query).
    2:{ rewrite <- (firstn_skipn 7 (skipn ni query)) at 1. f_equal.
        rewrite skipn_skipn. f_equal. lia. }
    rewrite keeps_length_skipn by exact Hk. fold U.
    rewrite tl_skipn.
    apply no_occurrence_from; [discriminate|].
    intros m Hm. apply Himax; fold i; lia. }
  exists (firstn ni query), (firstn 7 (skipn ni query)), (skipn (ni + 7) query).
  split; [exact Hsplit|]. split.
  { intros E. apply (f_equal (@List.length _)) in E.
    rewrite length_firstn in E. simpl in E. lia. }
  split; [exact Hupkw|]. split; [exact Hlast|].
  assert (Hclip7 : clip (len query) (i + 7) = (ni + 7)%nat).
  { unfold clip, len.
    replace (i + 7 <? 0) with false by (symmetry; apply Z.ltb_ge; lia).
    lia. }
  destruct (j >? 0) eqn:Hjpos.
  - (* a SETTINGS token follows *)
    apply Z.gtb_lt in Hjpos. injection H as <-.
    destruct Hj as [Hj|(_ & Hjlo & Hjhi & Hjs)]; [lia|].
    rewrite Z.sub_0_r in Hjs.
    set (nj := Z.to_nat j) in *.
    assert (Hclipj : clip (len query) j = nj).
    { unfold clip, len.
      replace (j <? 0) with false by (symmetry; apply Z.ltb_ge; lia).
      unfold len in Hjhi. lia. }
    assert (Hst : firstn 10 (skipn nj U) = lit " SETTINGS ")
      by exact (startswith_firstn _ _ Hjs).
    right.
    exists (firstn 10 (skipn nj query)), (skipn (nj + 10) query).
    unfold slice. rewrite Hclip7, Hclipj.
    assert (Hrest : skipn nj query
                    = firstn 10 (skipn nj query) ++ skipn (nj + 10) query).
    { rewrite <- (firstn_skipn 10 (skipn nj query)) at 1. f_equal.
      rewrite skipn_skipn. f_equal. lia. }
    split.
    { rewrite <- Hrest. apply skipn_between. lia. }
    split.
    { rewrite keeps_length_firstn by (apply keeps_length_part; exact Hk).
      rewrite keeps_length_skipn by exact Hk. exact Hst. }
    rewrite <- Hrest. rewrite keeps_length_skipn by exact Hk. fold U.
    rewrite tl_skipn.
    apply no_occurrence_from; [discriminate|].
    intros m Hm. apply Hjmax; fold j; lia.
  - (* no SETTINGS token follows *)
    rewrite Z.gtb_ltb in Hjpos. apply Z.ltb_ge in Hjpos.
    injection H as <-. left.
    unfold slice_from. rewrite Hclip7. split; [reflexivity|].
    rewrite keeps_length_skipn by exact Hk. fold U.
    apply no_occurrence_from; [discriminate|].
    intros m Hm. apply Hjmax; fold j; lia.
Qed.

End Predicate.

(** ** [Cursor.execute]: errors and what stays as it was *)

Lemma pushes_sent (calls : list Call) : pushes (map Sent calls) = 0.
Proof. unfold pushes. now induction calls. Qed.

Lemma sent_map_Sent (calls : list Call) : sent (map Sent calls) = calls.
Proof.
  unfold sent. induction calls as [|k calls IH]; [reflexivity|].
  cbn [map flat_map app]. now rewrite IH.
Qed.

Ltac undisturbed_with calls :=
  unfold undisturbed; simpl;
  split; [reflexivity|]; split; [reflexivity|]; split; [reflexivity|];
  split; [first [reflexivity | symmetry; assumption]|];
  exists calls; split; [reflexivity|repeat constructor].

Section ExecuteEdges.

Context {env : Environment}.

Lemma matches_startswith (operation : str) :
  startswith (lit "ALTER TABLE ") operation = false ->
  matches operation = false.
Proof. unfold matches, update_pattern_match. now intros ->. Qed.

(** The emulation is left out altogether when the setting is off, and
    for every statement that does not start with the words ALTER
    TABLE: [execute] is then the base [execute], and
    [substitute_params] is not consulted. *)
Theorem execute_without_emulation (operation : str)
    (parameters : option Params) (w : Cursor * list Event) :
  update_rowcount_enabled = false
  \/ startswith (lit "ALTER TABLE ") operation = false ->
  execute operation parameters w = super_execute operation parameters w.
Proof.
  intros H. rewrite execute_unfold. unfold emulate_rowcount.
  replace (update_rowcount_enabled && matches operation) with false;
    [now destruct w|].
  destruct H as [->|H]; [reflexivity|].
  rewrite (matches_startswith _ H). now destruct update_rowcount_enabled.
Qed.

(** On a closed cursor the emulation changes nothing, however it
    ends. *)
Lemma emulate_rowcount_closed (operation : str) (parameters : option Params)
    (c : Cursor) (tr : list Event) :
  closed c = true ->
  after (emulate_rowcount operation parameters) (c, tr) = (c, tr).
Proof.
  intros Hc. unfold after, emulate_rowcount.
  destruct (update_rowcount_enabled && matches operation); [|reflexivity].
  unfold substitute, group1. unfold bind, get, ret, raise. cbn [fst snd].
  destruct (substitute_params (_client c) operation parameters)
    as [e|query]; [reflexivity|].
  destruct (update_pattern_match query) as [table|]; [|reflexivity].
  destruct (where_clause query) as [where_|]; [|reflexivity].
  now rewrite super_execute_closed by exact Hc.
Qed.

(** On a closed cursor [execute] always raises, with the cursor and
    the trace as they were: the handle is not driven. *)
Theorem execute_on_closed_cursor (operation : str)
    (parameters : option Params) (c : Cursor) (tr : list Event) :
  closed c = true ->
  exists e, execute operation parameters (c, tr) = (Raise e, (c, tr)).
Proof.
  intros Hc. rewrite execute_unfold.
  pose proof (emulate_rowcount_closed operation parameters c tr Hc) as Hem.
  unfold after in Hem.
  destruct (emulate_rowcount operation parameters (c, tr)) as [[[]|e] w'];
    cbn [snd] in Hem; subst w'.
  - rewrite super_execute_closed by exact Hc. eauto.
  - eauto.
Qed.

(** An error of [substitute_params] is the outcome of [execute] for a
    statement of the shape: nothing is sent, nothing changes. *)
Theorem execute_substitution_error (operation : str)
    (parameters : option Params) (e : Exn) (c : Cursor) (tr : list Event) :
  update_rowcount_enabled = true ->
  matches operation = true ->
  substitute_params (_client c) operation parameters = inl e ->
  execute operation parameters (c, tr) = (Raise e, (c, tr)).
Proof.
  intros He Hm Hs. rewrite execute_unfold. unfold emulate_rowcount.
  rewrite He, Hm. cbn [andb].
  unfold substitute. unfold bind, get, ret, raise. cbn [fst snd].
  now rewrite Hs.
Qed.

(** When the substituted text no longer has the shape, [m] is [None]
    and [m.group(1)] raises [AttributeError]: the statement is not
    sent. *)
Theorem execute_rematch_fails (operation : str) (parameters : option Params)
    (query : str) (c : Cursor) (tr : list Event) :
  update_rowcount_enabled = true ->
  matches operation = true ->
  substitute_params (_client c) operation parameters = inr query ->
  update_pattern_match query = None ->
  execute operation parameters (c, tr) = (Raise AttributeError, (c, tr)).
Proof.
  intros He Hm Hs Hq. rewrite execute_unfold. unfold emulate_rowcount.
  rewrite He, Hm. cbn [andb].
  unfold substitute, group1. unfold bind, get, ret, raise. cbn [fst snd].
  now rewrite Hs, Hq.
Qed.

(** When the handle refuses the probe, [execute] raises
    [OperationalError] with the probe as the only call: the statement
    is not sent, and the cursor is left running, not closed. *)
Theorem execute_probe_refused (operation : str) (parameters : option Params)
    (query table where_ : str) (c : Cursor) (tr : list Event) :
  update_rowcount_enabled = true ->
  matches operation = true ->
  substitute_params (_client c) operation parameters = inr query ->
  update_pattern_match query = Some table ->
  where_clause query = Some where_ ->
  closed c = false ->
  handle tr (_client c) (mkCall (probe_query table where_) None (columnar c))
  = DriverError ->
  execute operation parameters (c, tr)
  = (Raise OperationalError,
     (set_state RUNNING c,
      tr ++ [Sent (mkCall (probe_query table where_) None (columnar c))])).
Proof.
  intros He Hm Hs Ht Hw Hc Hh. rewrite execute_unfold.
  unfold emulate_rowcount. rewrite He, Hm. cbn [andb].
  unfold substitute, group1. unfold bind, get, ret, raise. cbn [fst snd].
  rewrite Hs, Ht, Hw.
  rewrite super_execute_open by exact Hc. cbn zeta. now rewrite Hh.
Qed.

Lemma undisturbed_refl (w : Cursor * list Event) : undisturbed w w.
Proof.
  unfold undisturbed.
  split; [reflexivity|]; split; [reflexivity|]; split; [reflexivity|];
    split; [reflexivity|].
  exists []. split; [now rewrite app_nil_r|constructor].
Qed.

Lemma super_execute_undisturbed (operation : str)
    (parameters : option Params) (c : Cursor) (tr : list Event) :
  undisturbed (c, tr) (after (super_execute operation parameters) (c, tr)).
Proof.
  destruct (closed c) eqn:Hc.
  - unfold after. rewrite super_execute_closed by exact Hc.
    apply undisturbed_refl.
  - unfold after. rewrite super_execute_open by exact Hc. cbn zeta.
    destruct (handle tr (_client c) _) as [r|].
    + destruct r as [n|rows [|h header]];
        undisturbed_with [mkCall operation parameters (columnar c)].
    + undisturbed_with [mkCall operation parameters (columnar c)].
Qed.

Lemma undisturbed_trans (w1 w2 w3 : Cursor * list Event) :
  undisturbed w1 w2 -> undisturbed w2 w3 -> undisturbed w1 w3.
Proof.
  intros (A1 & A2 & A3 & A4 & k1 & A5 & A6) (B1 & B2 & B3 & B4 & k2 & B5 & B6).
  unfold undisturbed.
  split; [congruence|]; split; [congruence|]; split; [congruence|];
    split; [congruence|].
  exists (k1 ++ k2). split.
  - rewrite B5, A5, map_app. now rewrite app_assoc.
  - apply Forall_app. split; [exact A6|].
    rewrite A3 in B6. exact B6.
Qed.

Lemma emulate_rowcount_undisturbed (operation : str)
    (parameters : option Params) (c : Cursor) (tr : list Event) :
  closed c = false ->
  undisturbed (c, tr) (after (emulate_rowcount operation parameters) (c, tr)).
Proof.
  intros Hc. unfold after, emulate_rowcount.
  destruct (update_rowcount_enabled && matches operation);
    [|apply undisturbed_refl].
  unfold substitute, group1. unfold bind, get, ret, raise. cbn [fst snd].
  destruct (substitute_params (_client c) operation parameters)
    as [e|query]; [apply undisturbed_refl|].
  destruct (update_pattern_match query) as [table|];
    [|apply undisturbed_refl].
  destruct (where_clause query) as [where_|]; [|apply undisturbed_refl].
  rewrite super_execute_open by exact Hc. cbn zeta.
  destruct (handle tr (_client c) _) as [r|].
  - unfold fetchone, unpack1, _reset_state. run.
    destruct r as [n|rows [|h header]]; simpl;
      try (destruct rows as [|[|v [|v' row]] rows]; simpl);
      undisturbed_with [mkCall (probe_query table where_) None (columnar c)].
  - undisturbed_with [mkCall (probe_query table where_) None (columnar c)].
Qed.

Lemma execute_frame (operation : str) (parameters : option Params)
    (w : Cursor * list Event) :
  undisturbed w (after (execute operation parameters) w).
Proof.
  destruct w as [c tr]. destruct (closed c) eqn:Hc.
  - pose proof (emulate_rowcount_closed operation parameters c tr Hc) as Hem.
    unfold after in *. rewrite execute_unfold.
    destruct (emulate_rowcount operation parameters (c, tr)) as [[[]|e] w'];
      cbn [snd] in Hem; subst w'; [|apply undisturbed_refl].
    rewrite super_execute_closed by exact Hc. apply undisturbed_refl.
  - pose proof (emulate_rowcount_undisturbed operation parameters c tr Hc)
      as Hem.
    unfold after in *. rewrite execute_unfold.
    destruct (emulate_rowcount operation parameters (c, tr))
      as [[[]|e] [c' tr']]; cbn [snd] in *; [|exact Hem].
    apply (undisturbed_trans _ _ _ Hem).
    apply super_execute_undisturbed.
Qed.

(** Whatever [execute] does and however it ends, the cursor keeps its
    handle, its connection and pool and its [columnar] option, it is
    not closed by it (nor reopened), nothing is pushed to the pool,
    and every call the handle receives meanwhile (the probe too)
    carries the cursor's [columnar] option. *)
Theorem execute_undisturbed (operation : str) (parameters : option Params)
    (c : Cursor) (tr : list Event) :
  let r := execute operation parameters (c, tr) in
  _client (object r) = _client c
  /\ _connection (object r) = _connection c
  /\ columnar (object r) = columnar c
  /\ closed (object r) = closed c
  /\ pushes (trace r) = pushes tr
  /\ Forall (fun k => call_columnar k = columnar c)
       (calls_during (execute operation parameters) (c, tr)).
Proof.
  cbn zeta.
  destruct (execute_frame operation parameters (c, tr))
    as (H1 & H2 & H3 & H4 & calls & H5 & H6).
  unfold calls_during, after, object, trace in *. cbn [fst snd] in *.
  repeat (split; [assumption|]).
  rewrite H5, pushes_app, pushes_sent, skipn_app_exact, sent_map_Sent.
  split; [lia|exact H6].
Qed.

(** However a statement ended on a cursor that was not closed, by
    returning or by raising, a [close] after it hands the cursor's
    handle back to the pool, once. *)
Theorem close_after_execute (operation : str) (parameters : option Params)
    (c : Cursor) (tr : list Event) :
  closed c = false ->
  let w' := after (execute operation parameters) (c, tr) in
  snd (after close w') = snd w' ++ [Pushed (_client c)]
  /\ pushes (snd (after close w')) = S (pushes tr)
  /\ closed (fst (after close w')) = true.
Proof.
  intros Hc. cbn zeta.
  destruct (execute_frame operation parameters (c, tr))
    as (H1 & _ & _ & H4 & calls & H5 & _).
  destruct (after (execute operation parameters) (c, tr)) as [c' tr'].
  cbn [fst snd] in *. rewrite Hc in H4.
  rewrite (close_when_open c' tr' H4). unfold closed_by_close.
  cbn [fst snd]. rewrite H1. split; [reflexivity|]. split; [|reflexivity].
  rewrite H5, !pushes_app, pushes_sent.
  change (pushes [Pushed (_client c)]) with 1. lia.
Qed.

End ExecuteEdges.

(** ** The options and the implicit close *)

Section OptionEdges.

Context {env : Environment}.

(** The [use_numpy] setter can only fail when it is asked to switch
    NumPy on without the extras.  The getter reads the requested
    value afterwards in every case; when the setter returns, the
    three result classes follow that value; it touches nothing but
    the handle's setting and result classes. *)
Theorem use_numpy_setter_outcome (value : bool) (c : Cursor)
    (tr : list Event) :
  let r := use_numpy_setter value (c, tr) in
  use_numpy (object r) = value
  /\ trace r = tr
  /\ set_client (_client c) (object r) = c
  /\ hosts (_client (object r)) = hosts (_client c)
  /\ match outcome r with
     | Return _ =>
         (value = false \/ numpy_installed = true)
         /\ classes_follow_setting (object r)
     | Raise e =>
         value = true /\ numpy_installed = false
         /\ e = RuntimeError "Extras for NumPy must be installed"
         /\ query_result_cls (_client (object r))
            = query_result_cls (_client c)
     end.
Proof.
  cbn zeta. unfold use_numpy_setter, classes_follow_setting, use_numpy.
  run. destruct c as [st rows rc col h k].
  destruct value; [destruct numpy_installed|]; simpl;
    repeat split; auto.
Qed.

Lemma use_numpy_setter_keeps (value : bool) (w : Cursor * list Event) :
  let r := use_numpy_setter value w in
  columnar (object r) = columnar (fst w)
  /\ use_numpy (object r) = value.
Proof.
  destruct w as [c tr]. cbn zeta. unfold use_numpy_setter, use_numpy. run.
  destruct value; [destruct numpy_installed|]; simpl; split; reflexivity.
Qed.

Lemma use_numpy_setter_trace (value : bool) (w : Cursor * list Event) :
  trace (use_numpy_setter value w) = snd w.
Proof.
  destruct w as [c tr]. unfold use_numpy_setter. run.
  destruct value; [destruct numpy_installed|]; reflexivity.
Qed.

Lemma bind_returns {Obj A B} (m : M Obj A) (k : A -> M Obj B)
    (w : Obj * list Event) (b : B) :
  outcome (bind m k w) = Return b ->
  exists a w', m w = (Return a, w') /\ bind m k w = k a w'.
Proof.
  unfold bind, outcome. destruct (m w) as [[a|e] w']; intros H;
    [eauto|discriminate].
Qed.

(** A [with] statement on [set_query_execution_args] that completes
    leaves [use_numpy] and [columnar] reading what they read before
    it, whatever was overridden and whatever the block did to them. *)
Theorem set_query_execution_args_restores {A}
    (new_columnar new_use_numpy : option bool) (body : M Cursor A)
    (c : Cursor) (tr : list Event) (a : A) :
  let r := set_query_execution_args new_columnar new_use_numpy body (c, tr) in
  outcome r = Return a ->
  use_numpy (object r) = use_numpy c /\ columnar (object r) = columnar c.
Proof.
  cbn zeta. unfold set_query_execution_args. intros H.
  destruct (bind_returns _ _ _ _ H) as (c0 & w0 & E0 & Q0).
  rewrite Q0 in H |- *. clear Q0. cbv beta zeta in H |- *.
  injection E0 as <- <-. cbn [fst] in H |- *.
  destruct (bind_returns _ _ _ _ H) as ([] & w1 & E1 & Q1).
  rewrite Q1 in H |- *. clear Q1. cbv beta in H |- *.
  assert (Hcol1 : columnar (fst w1) = columnar c).
  { destruct new_use_numpy as [v|].
    - pose proof (use_numpy_setter_keeps v (c, tr)) as Hk. cbn zeta in Hk.
      rewrite E1 in Hk. apply Hk.
    - injection E1 as <-. reflexivity. }
  destruct (bind_returns _ _ _ _ H) as (c1 & w1' & E2 & Q2).
  rewrite Q2 in H |- *. clear Q2. cbv beta zeta in H |- *.
  injection E2 as <- <-.
  destruct (bind_returns _ _ _ _ H) as ([] & w2 & E3 & Q3).
  rewrite Q3 in H |- *. clear Q3. cbv beta in H |- *.
  destruct (bind_returns _ _ _ _ H) as (a' & w3 & E4 & Q4).
  rewrite Q4 in H |- *. clear Q4. cbv beta in H |- *.
  destruct (bind_returns _ _ _ _ H) as ([] & w4 & E5 & Q5).
  rewrite Q5 in H |- *. clear Q5. cbv beta in H |- *.
  pose proof (use_numpy_setter_keeps (use_numpy c) w3) as Hk.
  cbn zeta in Hk. rewrite E5 in Hk. unfold object in Hk. cbn [fst snd] in Hk.
  unfold bind, modify, ret, object. cbn [fst snd].
  split; [apply Hk|exact Hcol1].
Qed.

(** Asking for NumPy through [set_query_execution_args] without the
    extras fails on entry: the block does not run, [columnar] is not
    overridden, and [use_numpy] is left reading true. *)
Theorem set_query_execution_args_entry_fails {A}
    (new_columnar : option bool) (body : M Cursor A) (c : Cursor)
    (tr : list Event) :
  numpy_installed = false ->
  set_query_execution_args new_columnar (Some true) body (c, tr)
  = (Raise (RuntimeError "Extras for NumPy must be installed"),
     (set_client (set_client_use_numpy true (_client c)) c, tr)).
Proof.
  intros H. unfold set_query_execution_args.
  unfold bind at 1. unfold get at 1. cbn [fst snd].
  unfold bind at 1.
  now rewrite use_numpy_setter_unavailable by exact H.
Qed.

(** A statement executed inside
    [set_query_execution_args(columnar=v)] reaches the handle with
    [columnar=v] on every call, the probe included. *)
Theorem columnar_override_reaches_handle (v : bool) (operation : str)
    (parameters : option Params) (c : Cursor) (tr : list Event) :
  Forall (fun k => call_columnar k = Some v)
    (calls_during
       (set_query_execution_args (Some v) None (execute operation parameters))
       (c, tr)).
Proof.
  unfold calls_during, after, set_query_execution_args.
  unfold bind, get, ret, modify. cbn [fst snd].
  destruct (execute_frame operation parameters
              (set_columnar (Some v) c, tr))
    as (_ & _ & _ & _ & calls & Htr & Hcalls).
  unfold after in Htr.
  destruct (execute operation parameters (set_columnar (Some v) c, tr))
    as [[[]|e] [c' tr']]; cbn [fst snd] in *.
  - pose proof (use_numpy_setter_trace (use_numpy c) (c', tr')) as Hs.
    unfold trace in Hs. cbn [snd] in Hs.
    destruct (use_numpy_setter (use_numpy c) (c', tr')) as [[[]|e] [c4 tr4]];
      cbn [fst snd] in *; subst tr4 tr'; rewrite skipn_app_exact;
      rewrite sent_map_Sent; exact Hcalls.
  - subst tr'. rewrite skipn_app_exact, sent_map_Sent. exact Hcalls.
Qed.

(** [__del__] does exactly what [close] does, on every cursor. *)
Theorem del_is_close (w : Cursor * list Event) : __del__ w = close w.
Proof.
  destruct w as [c tr]. destruct (closed c) eqn:Hc.
  - now rewrite del_when_closed, close_when_closed.
  - unfold __del__. run. now rewrite Hc.
Qed.

End OptionEdges.

(** ** [Connection]: handing out cursors and closing *)

Section ConnectionEdges.

Context {env : Environment}.

Lemma cursor_run (k : Connection) (tr : list Event) (h : Client) (p : Pool) :
  is_closed k = false ->
  pool_pull (pool k) = (inr h, p) ->
  let k' := set_hosts (Some (hosts_for k h)) (set_pool p k) in
  cursor None (k, tr)
  = (Return (Cursor_init (set_client_hosts (hosts_for k h) h) k'),
     (k', tr ++ [Pulled])).
Proof.
  intros Hc Hp. cbn zeta. unfold cursor, _make_client, hosts_for. run.
  rewrite Hc. simpl. rewrite Hp. simpl.
  destruct (_hosts k) as [hs|] eqn:Hh; simpl.
  - unfold set_hosts, set_pool. simpl. rewrite Hh. reflexivity.
  - unfold set_hosts, set_pool. simpl. now destruct h.
Qed.

(** On an open connection whose pool hands out a handle, [cursor]
    pulls exactly once and returns an open cursor on that handle,
    bound to the connection; the handle's host list is the cached one
    (the handle's own when none was cached), and that list is what
    the connection has cached afterwards. *)
Theorem cursor_binds_pulled_handle (k : Connection) (tr : list Event)
    (h : Client) (p : Pool) :
  is_closed k = false ->
  pool_pull (pool k) = (inr h, p) ->
  let r := cursor None (k, tr) in
  exists cur,
    outcome r = Return cur
    /\ trace r = tr ++ [Pulled]
    /\ _client cur = set_client_hosts (hosts_for k h) h
    /\ _connection cur = object r
    /\ closed cur = false
    /\ pool (object r) = p
    /\ is_closed (object r) = false
    /\ _hosts (object r) = Some (hosts_for k h).
Proof.
  intros Hc Hp. cbn zeta. unfold cursor, _make_client, hosts_for. run.
  rewrite Hc. simpl. rewrite Hp. simpl.
  destruct (_hosts k) as [hs|] eqn:Hh; simpl.
  - eexists. repeat split; simpl; try reflexivity; assumption.
  - eexists. repeat split; simpl; try reflexivity; try assumption.
    now destruct h.
Qed.

(** When the pool raises instead of handing out a handle, [cursor]
    raises the same error; the cached host list and the closed flag
    are as before, and no cursor is made. *)
Theorem cursor_pull_fails
    (cursor_factory : option (Client -> Connection -> Cursor))
    (k : Connection) (tr : list Event) (e : Exn) (p : Pool) :
  is_closed k = false ->
  pool_pull (pool k) = (inl e, p) ->
  cursor cursor_factory (k, tr) = (Raise e, (set_pool p k, tr ++ [Pulled])).
Proof.
  intros Hc Hp. unfold cursor, _make_client. run.
  rewrite Hc. simpl. now rewrite Hp.
Qed.

(** A cached host list is never replaced: not by [cursor], however
    it ends, and not by [close]. *)
Theorem cached_hosts_kept
    (cursor_factory : option (Client -> Connection -> Cursor))
    (k : Connection) (tr : list Event) (hs : Hosts) :
  _hosts k = Some hs ->
  _hosts (fst (after (cursor cursor_factory) (k, tr))) = Some hs
  /\ _hosts (fst (after Connection_close (k, tr))) = Some hs.
Proof.
  intros Hh. split; [|exact Hh].
  unfold cursor, _make_client. run.
  destruct (is_closed k); simpl; [exact Hh|].
  destruct (pool_pull (pool k)) as [[e|h] p]; simpl; [exact Hh|].
  rewrite Hh. simpl. exact Hh.
Qed.

Lemma Connection_close_run (k : Connection) (tr : list Event) :
  Connection_close (k, tr)
  = (Return tt,
     (set_is_closed true (set_pool (pool_cleanup (pool k)) k),
      tr ++ [CleanedUp])).
Proof. reflexivity. Qed.

(** Once [close] has been called on a connection, every [cursor]
    call raises and pulls nothing, however many are made. *)
Theorem no_cursor_after_close
    (cursor_factory : option (Client -> Connection -> Cursor))
    (k : Connection) (tr : list Event) (n : nat) :
  let w := after Connection_close (k, tr) in
  repeatedly n (cursor cursor_factory) w = w
  /\ outcome (cursor cursor_factory w)
     = Raise (InterfaceError "connection already closed").
Proof.
  cbn zeta. unfold after. rewrite Connection_close_run. cbn [snd].
  assert (H : forall tr', cursor cursor_factory
                (set_is_closed true (set_pool (pool_cleanup (pool k)) k), tr')
              = (Raise (InterfaceError "connection already closed"),
                 (set_is_closed true (set_pool (pool_cleanup (pool k)) k),
                  tr'))) by reflexivity.
  split; [|now rewrite H].
  induction n as [|n IH]; [reflexivity|].
  cbn [repeatedly]. unfold after at 1. rewrite H. exact IH.
Qed.

(** [Connection.close] has no guard: each call runs the pool's
    [cleanup] again, so [n] calls leave [n] cleanups in the trace and
    the pool cleaned up [n] times. *)
Theorem close_cleans_up_every_time (k : Connection) (tr : list Event)
    (n : nat) :
  let w := repeatedly n Connection_close (k, tr) in
  snd w = tr ++ repeat CleanedUp n
  /\ pool (fst w) = Nat.iter n pool_cleanup (pool k)
  /\ is_closed (fst w) = is_closed k || negb (Nat.eqb n 0).
Proof.
  cbn zeta. revert k tr. induction n as [|n IH]; intros k tr.
  - cbn. rewrite app_nil_r, orb_false_r. auto.
  - cbn [repeatedly]. unfold after. rewrite Connection_close_run.
    cbn [snd].
    destruct (IH (set_is_closed true (set_pool (pool_cleanup (pool k)) k))
                 (tr ++ [CleanedUp])) as (H1 & H2 & H3).
    cbn [pool is_closed set_is_closed set_pool] in H2, H3.
    split; [rewrite H1; cbn [repeat]; now rewrite <- app_assoc|].
    split.
    + rewrite H2. clear. induction n as [|n IH]; [reflexivity|].
      change (pool_cleanup (Nat.iter n pool_cleanup (pool_cleanup (pool k)))
              = pool_cleanup (Nat.iter (S n) pool_cleanup (pool k))).
      now rewrite IH.
    + rewrite H3. cbn [Nat.eqb negb]. now rewrite orb_true_r.
Qed.

(** A cursor obtained from the connection and then closed hands back
    to the pool the very handle that was pulled for it (with the host
    list it was given): one pull, then one push of that handle. *)
Theorem cursor_then_close (k : Connection) (tr : list Event) (h : Client)
    (p : Pool) :
  is_closed k = false ->
  pool_pull (pool k) = (inr h, p) ->
  let handed := set_client_hosts (hosts_for k h) h in
  exists cur k',
    cursor None (k, tr) = (Return cur, (k', tr ++ [Pulled]))
    /\ snd (after close (cur, tr ++ [Pulled]))
       = tr ++ [Pulled; Pushed handed]
    /\ pool (_connection (fst (after close (cur, tr ++ [Pulled]))))
       = snd (pool_push handed p).
Proof.
  intros Hc Hp. cbn zeta.
  pose proof (cursor_run k tr h p Hc Hp) as Hrun. cbn zeta in Hrun.
  eexists. eexists. split; [exact Hrun|].
  rewrite close_when_open by reflexivity. unfold closed_by_close.
  cbn [fst snd]. rewrite <- app_assoc. split; reflexivity.
Qed.

End ConnectionEdges.

(** ** [send_query] and the parameters *)

Section WireEdges.

Context {proto : Protocol}.

(** Without server-side parameters, or with a server older than
    [DBMS_MIN_PROTOCOL_VERSION_WITH_PARAMETERS], what [send_query]
    writes and leaves behind does not depend on the parameters it is
    given. *)
Theorem send_query_ignores_parameters (query : str) (query_id : option str)
    (c c0 : DriverConnection) (tr : list Event) (p1 p2 : option Params) :
  connected_object c = inr c0 ->
  server_side_params (context c0) = false
  \/ (used_revision c0 < DBMS_MIN_PROTOCOL_VERSION_WITH_PARAMETERS)%Z ->
  send_query query query_id p1 (c, tr) = send_query query query_id p2 (c, tr).
Proof.
  intros Hc H. rewrite !send_query_connects, Hc.
  destruct c0 as [conn rev name crev ctx imp comp out].
  cbn [context used_revision] in H.
  unfold write_query_packet, write.
  unfold bind, get, ret, modify.
  cbn -[Z.geb Z.lor].
  destruct (rev >=? DBMS_MIN_PROTOCOL_VERSION_WITH_PARAMETERS)%Z eqn:Hrev.
  - destruct H as [H|H].
    + rewrite H.
      destruct (rev >=? DBMS_MIN_REVISION_WITH_CLIENT_INFO)%Z;
        destruct (rev >=? DBMS_MIN_REVISION_WITH_INTERSERVER_SECRET)%Z;
        reflexivity.
    + apply Z.geb_le in Hrev. lia.
  - destruct (rev >=? DBMS_MIN_REVISION_WITH_CLIENT_INFO)%Z;
      destruct (rev >=? DBMS_MIN_REVISION_WITH_INTERSERVER_SECRET)%Z;
      reflexivity.
Qed.

End WireEdges.

(** ** [Connection.__init__] *)

Section InitKwargs.

Lemma str_eqb_refl (a : str) : str_eqb a a = true.
Proof.
  induction a as [|x a IH]; [reflexivity|].
  cbn [str_eqb]. now rewrite N.eqb_refl.
Qed.

Lemma dict_get_app (k : str) (d d' : Kwargs) :
  dict_get k (d ++ d')
  = match dict_get k d with
    | Some v => Some v
    | None => dict_get k d'
    end.
Proof.
  induction d as [|[k' v] d IH]; [reflexivity|].
  cbn [app dict_get]. now destruct (str_eqb k k').
Qed.

Lemma dict_get_setdefault (k k' : str) (v : Value) (d : Kwargs) :
  dict_get k (setdefault k' v d)
  = match dict_get k d with
    | Some x => Some x
    | None => if str_eqb k k' then Some v else None
    end.
Proof.
  unfold setdefault. destruct (dict_get k' d) as [x|] eqn:E.
  - destruct (dict_get k d) as [y|] eqn:Ek; [reflexivity|].
    destruct (str_eqb k k') eqn:Hk; [|reflexivity].
    assert (k = k').
    { clear -Hk. revert k' Hk. induction k as [|a k IH]; intros [|b k'] H;
        try discriminate; [reflexivity|].
      cbn [str_eqb] in H. apply andb_true_iff in H as [H1 H2].
      apply N.eqb_eq in H1. subst b. f_equal. now apply IH. }
    subst k'. congruence.
  - rewrite dict_get_app. cbn [dict_get].
    now destruct (dict_get k d).
Qed.

(** The keyword arguments that reach the base constructor always have
    [connections_min] and [connections_max]: the caller's values when
    given (whatever they are), 10 and 100 otherwise.  No key the
    caller gave changes its value, and applying the defaults twice is
    applying them once. *)
Theorem init_kwargs_defaults (kwargs : Kwargs) :
  dict_get (lit "connections_min") (init_kwargs kwargs)
  = Some (match dict_get (lit "connections_min") kwargs with
          | Some v => v
          | None => VInt 10
          end)
  /\ dict_get (lit "connections_max") (init_kwargs kwargs)
     = Some (match dict_get (lit "connections_max") kwargs with
             | Some v => v
             | None => VInt 100
             end)
  /\ (forall k, dict_get k kwargs = None
                \/ dict_get k (init_kwargs kwargs) = dict_get k kwargs)
  /\ init_kwargs (init_kwargs kwargs) = init_kwargs kwargs.
Proof.
  unfold init_kwargs. split; [|split; [|split]].
  - rewrite !dict_get_setdefault.
    change (str_eqb (lit "connections_min") (lit "connections_max"))
      with false.
    rewrite str_eqb_refl.
    now destruct (dict_get (lit "connections_min") kwargs).
  - rewrite !dict_get_setdefault. rewrite str_eqb_refl.
    change (str_eqb (lit "connections_max") (lit "connections_min"))
      with false.
    now destruct (dict_get (lit "connections_max") kwargs).
  - intros k. rewrite !dict_get_setdefault.
    destruct (dict_get k kwargs); [now right|now left].
  - set (d1 := setdefault (lit "connections_min") (VInt 10) kwargs).
    set (d2 := setdefault (lit "connections_max") (VInt 100) d1).
    assert (Hmin : exists v, dict_get (lit "connections_min") d2 = Some v).
    { unfold d2, d1. rewrite !dict_get_setdefault.
      rewrite str_eqb_refl.
      destruct (dict_get (lit "connections_min") kwargs); eauto. }
    assert (Hmax : exists v, dict_get (lit "connections_max") d2 = Some v).
    { unfold d2. rewrite dict_get_setdefault. rewrite str_eqb_refl.
      destruct (dict_get (lit "connections_max") d1); eauto. }
    destruct Hmin as [v1 Hmin]. destruct Hmax as [v2 Hmax].
    unfold setdefault at 2. rewrite Hmin.
    unfold setdefault at 1. now rewrite Hmax.
Qed.

End InitKwargs.

(** ** Further scenarios *)

Section MoreScenarios.

#[local] Existing Instance Demo.demo_env.

Lemma update_pattern_match_shape_witness :
  update_pattern_match Demo.update_t_where = Some (quoted (lit "t"))
  /\ exists name rest,
       name <> []
       /\ quoted (lit "t") = quoted name
       /\ Demo.update_t_where
          = lit "ALTER TABLE " ++ quoted (lit "t") ++ lit " UPDATE " ++ rest.
Proof.
  split; [vm_compute; reflexivity|].
  apply (update_pattern_match_shape Demo.update_t_where (quoted (lit "t"))).
  vm_compute. reflexivity.
Defined.

Lemma update_pattern_match_plain_name_witness :
  (lit "t" <> [] /\ Forall (fun c => c <> dquote) (lit "t"))
  /\ update_pattern_match
       (lit "ALTER TABLE " ++ quoted (lit "t") ++ lit " UPDATE "
        ++ lit "x = 1 WHERE id > 5")
     = Some (quoted (lit "t")).
Proof.
  assert (H1 : lit "t" <> []) by discriminate.
  assert (H2 : Forall (fun c => c <> dquote) (lit "t"))
    by (repeat constructor; discriminate).
  split; [split; assumption|].
  exact (update_pattern_match_plain_name (lit "t") (lit "x = 1 WHERE id > 5")
           H1 H2).
Defined.

Lemma where_clause_between_keywords_witness :
  let query := Demo.update_t_where ++ lit " settings max_threads = 2" in
  (keeps_length query /\ where_clause query = Some (lit "id > 5"))
  /\ exists before keyword rest,
       query = before ++ keyword ++ rest
       /\ before <> []
       /\ upper keyword = lit " WHERE "
       /\ ~ occurs (lit " WHERE ") (tl (upper (keyword ++ rest)))
       /\ ((lit "id > 5" = rest /\ ~ occurs (lit " SETTINGS ") (upper rest))
           \/ exists settings_keyword tail,
                rest = lit "id > 5" ++ settings_keyword ++ tail
                /\ upper settings_keyword = lit " SETTINGS "
                /\ ~ occurs (lit " SETTINGS ")
                     (tl (upper (settings_keyword ++ tail)))).
Proof.
  cbn zeta.
  assert (Hk : keeps_length
                 (Demo.update_t_where ++ lit " settings max_threads = 2"))
    by (unfold keeps_length; repeat (constructor; [reflexivity|]);
        constructor).
  assert (Hw : where_clause
                 (Demo.update_t_where ++ lit " settings max_threads = 2")
               = Some (lit "id > 5")) by (vm_compute; reflexivity).
  split; [split; assumption|].
  exact (where_clause_between_keywords _ _ Hk Hw).
Defined.

Lemma execute_without_emulation_witness :
  (update_rowcount_enabled = false
   \/ startswith (lit "ALTER TABLE ") (lit "select 1") = false)
  /\ execute (lit "select 1") None (Demo.scenario_cursor, [])
     = super_execute (lit "select 1") None (Demo.scenario_cursor, []).
Proof.
  assert (H : update_rowcount_enabled = false
              \/ startswith (lit "ALTER TABLE ") (lit "select 1") = false)
    by (right; reflexivity).
  split; [exact H|].
  exact (execute_without_emulation (lit "select 1") None
           (Demo.scenario_cursor, []) H).
Defined.

Lemma execute_on_closed_cursor_witness :
  let c := fst (after close (Demo.scenario_cursor, [])) in
  closed c = true
  /\ exists e,
       execute Demo.update_t_where None (c, [])
       = (Raise e, (c, [])).
Proof.
  cbn zeta. split; [reflexivity|].
  exact (execute_on_closed_cursor Demo.update_t_where None
           (fst (after close (Demo.scenario_cursor, []))) [] eq_refl).
Defined.

Lemma execute_probe_refused_witness :
  let c := Demo.fresh_cursor (env := Demo.env_without_select)
             Demo.fresh_pool in
  handle (Environment := Demo.env_without_select) [] (_client c)
    (mkCall Demo.count_probe None None) = DriverError
  /\ execute (env := Demo.env_without_select) Demo.update_t_where None (c, [])
     = (Raise OperationalError,
        (set_state RUNNING c, [Sent (mkCall Demo.count_probe None None)])).
Proof.
  cbn zeta. split; [reflexivity|].
  refine (execute_probe_refused (env := Demo.env_without_select)
            Demo.update_t_where None Demo.update_t_where (quoted (lit "t"))
            (lit "id > 5")
            (Demo.fresh_cursor (env := Demo.env_without_select)
               Demo.fresh_pool) []
            eq_refl eq_refl eq_refl eq_refl _ eq_refl eq_refl).
  vm_compute. reflexivity.
Defined.

Lemma close_after_execute_witness :
  closed Demo.scenario_cursor = false
  /\ pushes (snd (after close
                    (after (execute (lit "select 1") None)
                       (Demo.scenario_cursor, [])))) = 1
  /\ outcome (execute (lit "select 1") None (Demo.scenario_cursor, []))
     = Raise OperationalError.
Proof.
  split; [reflexivity|]. split; [|vm_compute; reflexivity].
  exact (proj1 (proj2 (close_after_execute (lit "select 1") None
                         Demo.scenario_cursor [] eq_refl))).
Defined.

Lemma set_query_execution_args_restores_witness :
  let r := set_query_execution_args (Some true) (Some true)
             (execute Demo.update_t None) (Demo.scenario_cursor, []) in
  outcome r = Return tt
  /\ use_numpy (object r) = false /\ columnar (object r) = None.
Proof.
  cbn zeta.
  assert (H : outcome (set_query_execution_args (Some true) (Some true)
                         (execute Demo.update_t None)
                         (Demo.scenario_cursor, [])) = Return tt)
    by (vm_compute; reflexivity).
  split; [exact H|].
  exact (set_query_execution_args_restores (Some true) (Some true)
           (execute Demo.update_t None) Demo.scenario_cursor [] tt H).
Defined.

Lemma set_query_execution_args_entry_fails_witness :
  let c := Demo.fresh_cursor (env := Demo.env_without_numpy)
             Demo.fresh_pool in
  numpy_installed (Environment := Demo.env_without_numpy) = false
  /\ calls_during
       (set_query_execution_args (env := Demo.env_without_numpy)
          (Some true) (Some true)
          (execute (env := Demo.env_without_numpy) Demo.update_t None))
       (c, []) = [].
Proof.
  cbn zeta. split; [reflexivity|].
  unfold calls_during, after.
  rewrite (set_query_execution_args_entry_fails
             (env := Demo.env_without_numpy) (Some true)
             (execute (env := Demo.env_without_numpy) Demo.update_t None)
             (Demo.fresh_cursor (env := Demo.env_without_numpy)
                Demo.fresh_pool) [] eq_refl).
  reflexivity.
Defined.

Lemma cursor_binds_pulled_handle_witness :
  let k := Demo.open_connection (env := Demo.demo_env) Demo.fresh_pool in
  (is_closed k = false
   /\ pool_pull (pool k)
      = (inr (Demo.new_handle 1), Demo.mkSpecPool [] 2 100 false))
  /\ exists cur,
       outcome (cursor None (k, [])) = Return cur
       /\ _client cur = Demo.new_handle 1
       /\ _hosts (object (cursor None (k, []))) = Some Demo.localhost.
Proof.
  cbn zeta. split; [split; reflexivity|].
  destruct (cursor_binds_pulled_handle (env := Demo.demo_env) (Demo.open_connection (env := Demo.demo_env) Demo.fresh_pool)
              [] (Demo.new_handle 1) (Demo.mkSpecPool [] 2 100 false)
              eq_refl eq_refl)
    as (cur & Hout & _ & Hcl & _ & _ & _ & _ & Hh).
  exists cur. split; [exact Hout|]. split; [exact Hcl|exact Hh].
Defined.

Lemma cursor_pull_fails_witness :
  let k := Demo.open_connection (env := Demo.demo_env) (Demo.mkSpecPool [] 100 100 false) in
  (is_closed k = false
   /\ pool_pull (pool k)
      = (inl Demo.PoolExhausted, Demo.mkSpecPool [] 100 100 false))
  /\ cursor None (k, []) = (Raise Demo.PoolExhausted, (k, [Pulled])).
Proof.
  cbn zeta. split; [split; reflexivity|].
  exact (cursor_pull_fails (env := Demo.demo_env) None
           (Demo.open_connection (env := Demo.demo_env) (Demo.mkSpecPool [] 100 100 false)) []
           Demo.PoolExhausted (Demo.mkSpecPool [] 100 100 false)
           eq_refl eq_refl).
Defined.

Lemma cached_hosts_kept_witness :
  let other : Hosts := [(lit "replica", 9000%Z)] in
  let k := mkConnection (env := Demo.demo_env) Demo.fresh_pool false (Some other) in
  _hosts k = Some other
  /\ _hosts (fst (after (cursor None) (k, []))) = Some other
  /\ _hosts (fst (after Connection_close (k, []))) = Some other.
Proof.
  cbn zeta. split; [reflexivity|].
  exact (cached_hosts_kept (env := Demo.demo_env) None
           (mkConnection (env := Demo.demo_env) Demo.fresh_pool false
              (Some [(lit "replica", 9000%Z)])) []
           [(lit "replica", 9000%Z)] eq_refl).
Defined.

Lemma cursor_then_close_witness :
  let k := Demo.open_connection (env := Demo.demo_env) Demo.fresh_pool in
  (is_closed k = false
   /\ pool_pull (pool k)
      = (inr (Demo.new_handle 1), Demo.mkSpecPool [] 2 100 false))
  /\ exists cur k',
       cursor None (k, []) = (Return cur, (k', [Pulled]))
       /\ snd (after close (cur, [Pulled]))
          = [Pulled; Pushed (Demo.new_handle 1)]
       /\ pool (_connection (fst (after close (cur, [Pulled]))))
          = Demo.mkSpecPool [Demo.new_handle 1] 2 100 false.
Proof.
  cbn zeta. split; [split; reflexivity|].
  exact (cursor_then_close (env := Demo.demo_env) (Demo.open_connection (env := Demo.demo_env) Demo.fresh_pool) []
           (Demo.new_handle 1) (Demo.mkSpecPool [] 2 100 false)
           eq_refl eq_refl).
Defined.

End MoreScenarios.

Lemma execute_substitution_error_witness :
  let c := Demo.fresh_cursor (env := Setting.env_with_template)
             Demo.fresh_pool in
  (update_rowcount_enabled (env := Setting.env_with_template) = true
   /\ matches Setting.template = true
   /\ substitute_params (Environment := Setting.env_with_template)
        (_client c) Setting.template None = inl TypeError)
  /\ execute (env := Setting.env_with_template) Setting.template None (c, [])
     = (Raise TypeError, (c, [])).
Proof.
  cbn zeta. split; [repeat split; vm_compute; reflexivity|].
  refine (execute_substitution_error (env := Setting.env_with_template)
            Setting.template None TypeError
            (Demo.fresh_cursor (env := Setting.env_with_template)
               Demo.fresh_pool) [] eq_refl _ _);
    vm_compute; reflexivity.
Defined.

Lemma execute_rematch_fails_witness :
  let c := Demo.fresh_cursor (env := Setting.env_with_template)
             Demo.fresh_pool in
  let parameters := Some [(lit "t", VStr (lit "a" ++ [dquote] ++ lit "b"))] in
  let query := lit "ALTER TABLE "
               ++ quoted (lit "'a" ++ [dquote] ++ lit "b'")
               ++ lit " UPDATE x = 1" in
  (matches Setting.template = true
   /\ substitute_params (Environment := Setting.env_with_template)
        (_client c) Setting.template parameters = inr query
   /\ update_pattern_match query = None)
  /\ execute (env := Setting.env_with_template) Setting.template parameters
       (c, [])
     = (Raise AttributeError, (c, [])).
Proof.
  cbn zeta. split; [repeat split; vm_compute; reflexivity|].
  refine (execute_rematch_fails (env := Setting.env_with_template)
            Setting.template
            (Some [(lit "t", VStr (lit "a" ++ [dquote] ++ lit "b"))])
            (lit "ALTER TABLE " ++ quoted (lit "'a" ++ [dquote] ++ lit "b'")
             ++ lit " UPDATE x = 1")
            (Demo.fresh_cursor (env := Setting.env_with_template)
               Demo.fresh_pool) [] eq_refl _ _ _);
    vm_compute; reflexivity.
Defined.

Lemma send_query_ignores_parameters_witness :
  let c0 := mkDriverConnection true 54460 (lit "python-driver") 54460
              (mkContext [] false) false 0 [] in
  (connected_object (proto := Setting.protocol) Setting.offline = inr c0
   /\ (server_side_params (context c0) = false
       \/ (used_revision c0
           < DBMS_MIN_PROTOCOL_VERSION_WITH_PARAMETERS
               (Protocol := Setting.protocol))%Z))
  /\ send_query (proto := Setting.protocol) (lit "select 1") None None
       (Setting.offline, [])
     = send_query (proto := Setting.protocol) (lit "select 1") None
         (Some [(lit "x", VInt 1)]) (Setting.offline, []).
Proof.
  cbn zeta.
  assert (H : server_side_params (context
                (mkDriverConnection true 54460 (lit "python-driver") 54460
                   (mkContext [] false) false 0 [])) = false
              \/ (used_revision
                    (mkDriverConnection true 54460 (lit "python-driver")
                       54460 (mkContext [] false) false 0 [])
                  < DBMS_MIN_PROTOCOL_VERSION_WITH_PARAMETERS
                      (Protocol := Setting.protocol))%Z)
    by (left; reflexivity).
  split; [split; [reflexivity|exact H]|].
  exact (send_query_ignores_parameters (proto := Setting.protocol)
           (lit "select 1") None Setting.offline _ [] None
           (Some [(lit "x", VInt 1)]) eq_refl H).
Defined.
